(** * Verification of the hhts survey-data pipeline (hhtbs2016Data.py)

    A pandas DataFrame is modelled row by row: every [df.loc[mask, cols] = v]
    of the source is independent across rows, so a table is a list of rows and
    a recode pass is a per-row sequence of steps.  A row maps a column name to
    an optional cell; [None] is pandas' missing value (NaN / pd.NA). *)

From Stdlib Require Import Ascii String List ZArith QArith Bool Lia.
From Stdlib Require Import Sorting.Permutation Sorting.Sorted.
From Stdlib Require Sorting.Mergesort.
Import ListNotations.
Open Scope string_scope.

(** ** Cells, rows and the comparison operators of pandas *)

Inductive cell : Type :=
| CStr (s : string)   (* a category label or an object (text) value *)
| CInt (z : Z)        (* an integer value (Int8 / Int16 / int category) *)
| CNum (q : Q).       (* a float value, kept exact *)

Definition row := string -> option cell.

Definition NA : string := "Not Applicable".

(** [series == s]: a missing value compares unequal to everything. *)
Definition eq_str (v : option cell) (s : string) : bool :=
  match v with
  | Some (CStr x) => String.eqb x s
  | _ => false
  end.

(** [series != s] is the negation of [==]; true on a missing value. *)
Definition neq_str (v : option cell) (s : string) : bool := negb (eq_str v s).

(** [series.isin(l)] for a list of labels. *)
Definition isin (v : option cell) (l : list string) : bool :=
  match v with
  | Some (CStr x) => existsb (String.eqb x) l
  | _ => false
  end.

(** [series.isnull()] *)
Definition isnull (v : option cell) : bool :=
  match v with None => true | Some _ => false end.

(** Numeric comparisons of a numeric column; false on a missing value. *)
Definition num_gt0 (v : option cell) : bool :=
  match v with
  | Some (CInt z) => (0 <? z)%Z
  | Some (CNum q) => negb (Qle_bool q 0)
  | _ => false
  end.

Definition num_eq0 (v : option cell) : bool :=
  match v with
  | Some (CInt z) => (z =? 0)%Z
  | Some (CNum q) => Qeq_bool q 0
  | _ => false
  end.

Definition num_ge1 (v : option cell) : bool :=
  match v with
  | Some (CInt z) => (1 <=? z)%Z
  | Some (CNum q) => Qle_bool 1 q
  | _ => false
  end.

(** ** Recode steps

    [LocSet g cols v] is [df.loc[g, cols] = v]; [FillNa c v] is
    [df[c] = df[c].fillna(v)]; [MapCol c f] is [df[c] = df[c].str...(...)],
    a function applied to every present value of one column, whose result
    may be missing ([None]). *)

Inductive step : Type :=
| LocSet (g : row -> bool) (cols : list string) (v : cell)
| FillNa (col : string) (v : cell)
| MapCol (col : string) (f : cell -> option cell).

Definition mem (c : string) (cols : list string) : bool :=
  existsb (String.eqb c) cols.

Definition apply_step (s : step) (r : row) : row :=
  match s with
  | LocSet g cols v =>
      if g r then fun c => if mem c cols then Some v else r c else r
  | FillNa col v =>
      fun c => if String.eqb c col
               then match r c with None => Some v | x => x end
               else r c
  | MapCol col f =>
      fun c => if String.eqb c col
               then match r c with Some x => f x | None => None end
               else r c
  end.

Definition run_steps (ss : list step) (r : row) : row :=
  fold_left (fun acc s => apply_step s acc) ss r.

(** Columns a step may write. *)
Definition step_targets (s : step) : list string :=
  match s with
  | LocSet _ cols _ => cols
  | FillNa col _ => [col]
  | MapCol col _ => [col]
  end.

Definition writes (c : string) (ss : list step) : bool :=
  existsb (fun s => mem c (step_targets s)) ss.

(** A step keeps the label [x] in column [c]: it never writes another value
    there (a [fillna] only writes a missing cell). *)
Definition cell_is (v : cell) (x : string) : bool :=
  match v with CStr y => String.eqb y x | _ => false end.

(** A step writes in column [c] only values accepted by [ok]. *)
Definition writes_only (c : string) (ok : cell -> bool) (s : step) : bool :=
  match s with
  | LocSet _ cols v => negb (mem c cols) || ok v
  | FillNa col v => negb (String.eqb c col) || ok v
  | MapCol col _ => negb (String.eqb c col)
  end.

(** A step never turns a present value of column [c] into a missing one:
    only a [MapCol] on [c] may. *)
Definition never_blanks (c : string) (s : step) : bool :=
  match s with
  | MapCol col _ => negb (String.eqb c col)
  | _ => true
  end.

Definition keeps (c x : string) (s : step) : bool :=
  match s with
  | LocSet _ cols v => negb (mem c cols) || cell_is v x
  | FillNa _ _ => true
  | MapCol col _ => negb (String.eqb c col)
  end.

(** ** The day table: [SurveyData.day], rules after the code mappings *)

Module Day.

Definition day_steps : list step :=
  [ (* enforce agreement between number of trips and indicator if trips
       were made; number of trips takes precedence *)
    LocSet (fun r => num_gt0 (r "num_trips")) ["trips_yesno"] (CStr "Yes");
    LocSet (fun r => num_eq0 (r "num_trips")) ["trips_yesno"] (CStr "No");
    LocSet (fun r => num_eq0 (r "num_trips") && isnull (r "notravel"))
           ["notravel"] (CStr "Missing");
    LocSet (fun r => num_gt0 (r "num_trips") && isnull (r "notravel"))
           ["notravel"] (CStr NA);
    LocSet (fun r => neq_str (r "notravel") "Other reason" &&
                     neq_str (r "notravel_secondary") "Other reason")
           ["notravel_other"] (CStr NA);
    LocSet (fun r => (eq_str (r "notravel") "Other reason" ||
                      eq_str (r "notravel_secondary") "Other reason") &&
                     isnull (r "notravel_other"))
           ["notravel_other"] (CStr "Missing");
    LocSet (fun r => eq_str (r "data_source") "rMove")
           ["loc_start"; "loc_start_other"; "loc_end"; "loc_end_other"] (CStr NA);
    LocSet (fun r => eq_str (r "data_source") "Online" && isnull (r "loc_start"))
           ["loc_start"] (CStr "Missing");
    LocSet (fun r => eq_str (r "data_source") "Online" && isnull (r "loc_end"))
           ["loc_end"] (CStr "Missing");
    LocSet (fun r => eq_str (r "data_source") "Online" && neq_str (r "loc_start") "Other")
           ["loc_start_other"] (CStr NA);
    LocSet (fun r => eq_str (r "data_source") "Online" && neq_str (r "loc_end") "Other")
           ["loc_end_other"] (CStr NA) ].

(** Final day row; [trips_yesno] is output as [made_trips] and [num_trips]
    as [number_trips]. *)
Definition day (r : row) : row := run_steps day_steps r.

End Day.

(** ** The persons table: [SurveyData.persons], manual recodes in source order *)

Module Persons.

Definition age16_cols : list string :=
  ["employment"; "jobs_count"; "license"; "military";
   "ethnicity_amindian_alaska"; "ethnicity_asian"; "ethnicity_black";
   "ethnicity_hispanic"; "ethnicity_hawaiian_pacific"; "ethnicity_white";
   "ethnicity_other"; "ethnicity_prefernot"; "disability"; "transit_freq";
   "transitpass"; "job_type"; "occupation"; "industry"; "hours_work";
   "commute_freq"; "commute_mode"; "work_flex"; "work_park_pay";
   "work_park_cost_dk"; "work_park_ease"; "telecommute_freq";
   "commute_subsidy_none"; "commute_subsidy_parking"; "commute_subsidy_transit";
   "commute_subsidy_vanpool"; "commute_subsidy_cash"; "commute_subsidy_other";
   "commute_subsidy_specify"; "work_address"; "secondwork_address";
   "smartphone_type"; "smartphone_age"].

Definition employed_cols : list string :=
  ["jobs_count"; "military"; "job_type"; "occupation"; "industry";
   "hours_work"; "commute_freq"; "commute_mode"; "work_flex"; "work_park_pay";
   "work_park_cost_dk"; "work_park_ease"; "telecommute_freq";
   "commute_subsidy_none"; "commute_subsidy_parking"; "commute_subsidy_transit";
   "commute_subsidy_vanpool"; "commute_subsidy_cash"; "commute_subsidy_other";
   "commute_subsidy_specify"; "work_address"; "secondwork_address"].

Definition military_cols : list string :=
  ["job_type"; "occupation"; "industry"; "hours_work"; "commute_freq";
   "commute_mode"; "work_flex"; "work_park_pay"; "work_park_cost_dk";
   "work_park_ease"; "telecommute_freq"; "commute_subsidy_none";
   "commute_subsidy_parking"; "commute_subsidy_transit";
   "commute_subsidy_vanpool"; "commute_subsidy_cash"; "commute_subsidy_other";
   "commute_subsidy_specify"].

Definition commute_cols : list string :=
  ["commute_mode"; "work_flex"; "work_park_pay"; "work_park_cost_dk";
   "work_park_ease"; "commute_subsidy_none"; "commute_subsidy_parking";
   "commute_subsidy_transit"; "commute_subsidy_vanpool"; "commute_subsidy_cash";
   "commute_subsidy_other"; "commute_subsidy_specify"].

Definition active_duty : list string :=
  ["Active duty within the San Diego region";
   "Active duty outside of the San Diego region"].

Definition step_age16 : step :=
  LocSet (fun r => isin (r "age") ["Under 5 years old"; "5-15 years"])
         age16_cols (CStr NA).

Definition step_military : step :=
  LocSet (fun r => isin (r "military") active_duty) military_cols (CStr NA).

(** Steps between the age 16+ recode and the military recode. *)
Definition steps_mid : list step :=
  [ LocSet (fun r => neq_str (r "age") "16-17 years") ["child_smartphone"] (CStr NA);
    LocSet (fun r => isin (r "age") ["Under 5 years old"; "5-15 years"; "16-17 years"])
           ["student"; "education"; "physical_activity"] (CStr NA);
    LocSet (fun r => eq_str (r "employment") "Not currently employed")
           employed_cols (CStr NA);
    FillNa "secondwork_address" (CStr NA);
    LocSet (fun r => eq_str (r "ethnicity_prefernot") "Yes")
           ["ethnicity_amindian_alaska"; "ethnicity_asian"; "ethnicity_black";
            "ethnicity_hispanic"; "ethnicity_hawaiian_pacific"; "ethnicity_white";
            "ethnicity_other"] (CStr NA);
    LocSet (fun r => isin (r "transit_freq")
                          ["1-3 days per month"; "Less than monthly"; "Never"])
           ["transitpass"] (CStr NA);
    LocSet (fun r => isin (r "schooltype") ["Missing"; NA])
           ["mainschool_address"; "secondschool_address"] (CStr NA);
    FillNa "secondschool_address" (CStr NA);
    LocSet (fun r => isin (r "schooltype")
                          ["Cared for at home";
                           "Kindergarten-Grade 5 (home school)";
                           "Grade 6-Grade 8 (home school)";
                           "Grade 9-Grade 12 (home school)";
                           "Missing"; NA])
           ["school_freq"; "other_school"; "school_mode"] (CStr NA);
    LocSet (fun r => eq_str (r "school_freq") "Never, only takes online classes")
           ["school_mode"] (CStr NA);
    LocSet (fun r => neq_str (r "schooltype") "Daycare outside home")
           ["daycare_early"; "daycare_late"] (CStr NA) ].

(** Steps after the military recode. *)
Definition steps_post : list step :=
  [ LocSet (fun r => eq_str (r "job_type")
                            "Work at home only (only telework or self-employed)")
           ["telecommute_freq"] (CStr NA);
    LocSet (fun r => isin (r "job_type")
                          ["Work at home only (only telework or self-employed)";
                           "Drive/Travel for a living (e.g., bus/truck driver, salesman)"])
           ["commute_freq"] (CStr NA);
    LocSet (fun r => isin (r "commute_freq") ["Never"; NA]) commute_cols (CStr NA);
    LocSet (fun r => isin (r "commute_subsidy_other") ["No"; NA])
           ["commute_subsidy_specify"] (CStr NA);
    LocSet (fun r => negb (isin (r "commute_mode")
                                ["Drive alone";
                                 "Carpool with only family/household member(s)";
                                 "Carpool with at least one person not in household";
                                 "Motorcycle/moped/scooter"]))
           ["work_park_pay"; "work_park_cost_dk"; "work_park_ease"] (CStr NA);
    LocSet (fun r => neq_str (r "secondhome") "Yes") ["secondhome_address"] (CStr NA);
    LocSet (fun r => eq_str (r "rmove_participant") "Yes")
           ["callcenter_diary"; "mobile_diary"] (CStr NA);
    LocSet (fun r => isin (r "smartphone_type")
                          ["Yes, has a Windows Phone";
                           "Yes, has other type of smartphone";
                           "Yes, has a Blackberry";
                           "No, does not have a smartphone"; NA])
           ["smartphone_age"] (CStr NA);
    FillNa "mainschool_address" (CStr "Missing");
    FillNa "work_address" (CStr "Missing") ].

Definition persons_steps : list step :=
  step_age16 :: steps_mid ++ step_military :: steps_post.

(** Final person row; output names: [age] is [age_category], [employment] is
    [employment_status], [military] is [military_status], [hours_work] is
    [hours_worked], [commute_freq] is [commute_frequency], [work_park_pay] is
    [work_parking_payment], [work_park_cost_dk] is [work_parking_cost_dk],
    [work_park_ease] is [work_parking_ease], [telecommute_freq] is
    [telecommute_frequency]. *)
Definition persons (r : row) : row := run_steps persons_steps r.

End Persons.

(** ** The trips table: [SurveyData.trips], manual recodes and weights *)

Module Trips.

Definition mode_cols : list string := ["mode1"; "mode2"; "mode3"; "mode4"].

(** [~df.mode1.isin(l) & ~df.mode2.isin(l) & ~df.mode3.isin(l) & ~df.mode4.isin(l)] *)
Definition no_mode_in (l : list string) (r : row) : bool :=
  negb (isin (r "mode1") l) && negb (isin (r "mode2") l) &&
  negb (isin (r "mode3") l) && negb (isin (r "mode4") l).

(** As in the source, a missing comma joins ["Vanpool"] and ["Bus"] into one
    literal (Python concatenates adjacent string literals). *)
Definition transit_modes : list string :=
  ["Vanpool" ++ "Bus"; "School bus"; "Intercity bus"; "Shuttle bus";
   "Paratransit"; "Other bus"; "Subway"; "Ferry or water taxi";
   "University bus or shuttle"; "Rail - Light"; "Rail - Intercity";
   "Rail - Other"; "Express bus/Rapid"; "San Diego Coaster Line"].

Definition auto_modes : list string :=
  ["Household vehicle 1"; "Household vehicle 2"; "Household vehicle 3";
   "Household vehicle 4"; "Household vehicle 5"; "Household vehicle 6";
   "Household vehicle 7"; "Other household vehicle"; "Rental car"; "Carshare";
   "Other auto"; "Work car"; "Friends car"; "Taxi - Regular"; "Taxi - Rideshare"].

Definition auto_nontaxi_modes : list string :=
  ["Household vehicle 1"; "Household vehicle 2"; "Household vehicle 3";
   "Household vehicle 4"; "Household vehicle 5"; "Household vehicle 6";
   "Household vehicle 7"; "Other household vehicle"; "Rental car"; "Carshare";
   "Other auto"; "Work car"; "Friends car"].

Definition taxi_modes : list string := ["Taxi - Regular"; "Taxi - Rideshare"].

Definition bus_modes : list string := ["Bus"; "Intercity bus"; "Express bus/Rapid"].

(** The list named [rail_modes] in the source holds the bus labels. *)
Definition rail_modes : list string := ["Bus"; "Intercity bus"; "Express bus/Rapid"].

Definition missing_cols : list string :=
  ["revised_count"; "origin_name"; "destination_name"; "origin_address";
   "destination_address"; "o_purpose_other"; "d_purpose_other"].

Definition steps_pre : list step :=
  map (fun c => FillNa c (CStr "Missing")) missing_cols ++
  [ LocSet (fun r => eq_str (r "data_source") "rMove")
           ["origin_name"; "origin_address"; "destination_name";
            "destination_address"; "toll_no"; "toll_noexpress"; "toll_express";
            "transit_access"; "transit_egress"; "parkride_lot"; "parkride_city"]
           (CStr NA);
    LocSet (fun r => eq_str (r "data_source") "Online")
           ["revised_count"; "error"; "flag_teleport"; "copied_trip";
            "analyst_merged"; "analyst_split"; "user_merged"; "user_split";
            "added_trip"; "nonproxy_derived_trip"; "proxy_added_trip";
            "o_purpose_inferred"; "d_purpose_inferred"] (CStr NA);
    LocSet (fun r => eq_str (r "data_source") "Online") ["location_tripid"] (CInt 0);
    LocSet (fun r => negb (isin (r "o_purpose") ["Other"; "Other purpose"]))
           ["o_purpose_other"] (CStr NA);
    LocSet (fun r => negb (isin (r "d_purpose") ["Other"; "Other purpose"]))
           ["d_purpose_other"] (CStr NA);
    LocSet (no_mode_in transit_modes) ["transit_access"; "transit_egress"] (CStr NA) ].

Definition step_auto : step :=
  LocSet (no_mode_in auto_modes) ["toll_no"; "toll_noexpress"; "toll_express"] (CStr NA).

Definition step_auto_nontaxi : step :=
  LocSet (no_mode_in auto_nontaxi_modes) ["driver"; "parklocation"] (CStr NA).

Definition steps_park : list step :=
  [ LocSet (fun r => negb (isin (r "parklocation")
                                ["Someone elses driveway"; "Parking lot/garage";
                                 "On street parking"; "Park & Ride lot"]))
           ["parktype"] (CStr NA);
    LocSet (fun r => negb (isin (r "parktype")
                                ["Paid via cash, credit card, or ticket(s)";
                                 "Reserved parking service (e.g., ParkingPanda)";
                                 "Another person paid"]))
           ["park_cost_dk"] (CStr NA);
    LocSet (fun r => neq_str (r "parklocation") "Park & Ride lot")
           ["parkride_lot"; "parkride_city"] (CStr NA) ].

Definition step_taxi : step :=
  LocSet (no_mode_in taxi_modes) ["taxitype"] (CStr NA).

Definition step_taxi_cost : step :=
  LocSet (fun r => negb (isin (r "taxitype")
                              ["I paid the fare myself (no reimbursement)";
                               "Employer paid (I am reimbursed)";
                               "Split/shared fare with other(s)"]))
         ["taxi_cost_dk"] (CStr NA).

Definition step_airtype : step :=
  LocSet (fun r => neq_str (r "mode1") "Airplane" && neq_str (r "mode2") "Airplane" &&
                   neq_str (r "mode3") "Airplane" && neq_str (r "mode4") "Airplane")
         ["airtype"] (CStr NA).

(** The airfare rule of the source tests [taxitype]. *)
Definition step_airfare : step :=
  LocSet (fun r => negb (isin (r "taxitype")
                              ["Personally paid the airfare cost"; "Employer paid 100%"]))
         ["airfare_cost_dk"] (CStr NA).

Definition steps_bus : list step :=
  [ LocSet (no_mode_in bus_modes) ["bustype"] (CStr NA);
    LocSet (fun r => neq_str (r "bustype") "Cash, credit card, or ticket(s)")
           ["bus_cost_dk"] (CStr NA) ].

Definition step_rail : step :=
  LocSet (no_mode_in rail_modes) ["railtype"] (CStr NA).

(** [str.replace("\|", "")]: drop every ['|'] of a text value. *)
Fixpoint strip_bar (s : string) : string :=
  match s with
  | EmptyString => EmptyString
  | String ch t => if Ascii.eqb ch "|"%char then strip_bar t else String ch (strip_bar t)
  end.

(** [.str.replace('|', '')] on an object column: a text value loses its
    bars, any other element becomes NaN. *)
Definition strip_bar_cell (v : cell) : option cell :=
  match v with CStr s => Some (CStr (strip_bar s)) | _ => None end.

Definition steps_post : list step :=
  [ LocSet (fun r => neq_str (r "railtype") "Cash, credit card, or ticket(s)")
           ["rail_cost_dk"] (CStr NA);
    LocSet (fun r => neq_str (r "mode1") "Ferry or water taxi" &&
                     neq_str (r "mode2") "Ferry or water taxi" &&
                     neq_str (r "mode3") "Ferry or water taxi" &&
                     neq_str (r "mode4") "Ferry or water taxi")
           ["ferrytype"] (CStr NA);
    LocSet (fun r => neq_str (r "ferrytype") "Cash, credit card, or ticket(s)")
           ["ferry_cost_dk"] (CStr NA);
    MapCol "origin_address" strip_bar_cell;
    MapCol "destination_address" strip_bar_cell ].

Definition trips_steps : list step :=
  steps_pre ++ step_auto :: step_auto_nontaxi :: steps_park ++
  step_taxi :: step_taxi_cost :: step_airtype :: step_airfare ::
  steps_bus ++ step_rail :: steps_post.

(** [travelers_hh.isin(range(1, 11))] on the integer categories 1..10. *)
Definition travelers_valid (v : option cell) : bool :=
  match v with
  | Some (CInt z) => (1 <=? z)%Z && (z <=? 10)%Z
  | _ => false
  end.

(** [df.loc[mask, new_col] = v] creates [new_col], missing off the mask. *)
Definition loc_new (mask : bool) (col : string) (v : cell) (r : row) : row :=
  fun c => if String.eqb c col then (if mask then Some v else None) else r c.

(** The survey weights (source lines 4424-4430). *)
Definition weights (r : row) : row :=
  let pre := num_ge1 (r "h_complete_weekdays") in
  let r1 := loc_new pre "weight_person_trip" (CNum 1) r in
  let r2 := loc_new pre "weight_trip" (CNum 1) r1 in
  let condition := pre && travelers_valid (r2 "travelers_hh") in
  if condition then
    fun c => if String.eqb c "weight_trip"
             then match r2 "travelers_hh" with
                  | Some (CInt z) => Some (CNum (1 / inject_Z z))
                  | x => x
                  end
             else r2 c
  else r2.

(** Final trip row; output names: [h_complete_weekdays] is
    [number_household_survey_weekdays], [travelers_hh] is
    [travelers_household], [mode1]..[mode4] are [mode_1]..[mode_4], [toll_no]
    is [toll_road], [toll_express] is [toll_road_express], [parklocation] is
    [parking_location], [taxitype] is [taxi_pay_type], [airtype] is
    [airplane_pay_type], [airfare_cost_dk] is [airplane_cost_dk], [railtype]
    is [rail_pay_type]. *)
Definition trips (r : row) : row := weights (run_steps trips_steps r).

(** A code dictionary of the source, in its declared order; the key
    [None] is the [pd.NA] key. *)
Definition dict : Type := list (option Z * string).

Definition option_Z_eqb (a b : option Z) : bool :=
  match a, b with
  | Some x, Some y => (x =? y)%Z
  | None, None => true
  | _, _ => false
  end.

(** [Series.map(d)] followed by [pd.Categorical]: a code that is not a key
    becomes missing. *)
Definition dict_map (d : dict) (code : option Z) : option cell :=
  match find (fun kv => option_Z_eqb (fst kv) code) d with
  | Some (_, label) => Some (CStr label)
  | None => None
  end.

Definition taxitype_dict : dict :=
  [(Some 1%Z, "I paid the fare myself (no reimbursement)");
   (Some 2%Z, "Employer paid (I am reimbursed)");
   (Some 3%Z, "Split/shared fare with other(s)");
   (Some 4%Z, "Someone else paid 100% (all of taxi fare)");
   (Some 97%Z, "Other");
   (Some (-9999)%Z, "Technical error");
   (Some (-9998)%Z, "Participant non-response");
   (None, "Missing")].

(** A row whose column [c] holds [v], the other columns as in [r]. *)
Definition set_col (r : row) (c : string) (v : option cell) : row :=
  fun c' => if String.eqb c' c then v else r c'.

End Trips.

(** ** The vehicles table: [df.groupby(["hhid", "vehnum"]).ngroup() + 1] *)

Module Vehicles.

Definition key : Type := (Z * Z)%type.   (* (hhid, vehnum) *)

Definition key_eqb (a b : key) : bool :=
  (fst a =? fst b)%Z && (snd a =? snd b)%Z.

(** The lexicographic order in which [groupby] (default [sort=True]) lists
    its group keys. *)
Definition key_ltb (a b : key) : bool :=
  (fst a <? fst b)%Z || ((fst a =? fst b)%Z && (snd a <? snd b)%Z).

Definition key_leb (a b : key) : bool := key_ltb a b || key_eqb a b.

(** The distinct keys, in first-seen order. *)
Definition unique_keys (ks : list key) : list key :=
  fold_left (fun seen k => if existsb (key_eqb k) seen then seen else (seen ++ [k])%list)
            ks [].

Fixpoint insert_key (k : key) (l : list key) : list key :=
  match l with
  | [] => [k]
  | h :: t => if key_leb k h then k :: h :: t else h :: insert_key k t
  end.

Fixpoint sort_keys (l : list key) : list key :=
  match l with
  | [] => []
  | h :: t => insert_key h (sort_keys t)
  end.

(** The groups of the groupby, in iteration order. *)
Definition groups (ks : list key) : list key := sort_keys (unique_keys ks).

Fixpoint index_of (k : key) (l : list key) : nat :=
  match l with
  | [] => 0
  | h :: t => if key_eqb k h then 0 else S (index_of k t)
  end.

(** [ngroup()]: the number of each row's group. *)
Definition ngroup (ks : list key) : list nat :=
  let gs := groups ks in map (fun k => index_of k gs) ks.

(** [vehicle_id] of each row, the rows given by their (hhid, vehnum). *)
Definition vehicle_id (ks : list key) : list nat := map S (ngroup ks).

(** Spec reading: 1 + the number of distinct keys of the input below [k]. *)
Definition rank_key (ks : list key) (k : key) : nat :=
  S (length (filter (fun x => key_ltb x k) (unique_keys ks))).

End Vehicles.

(** ** The border trips table: [SurveyData.border_trips] *)

Module Border.

(** One occurrence group of the wide household record: the raw Int8 codes
    of [border_mode_j], [border_poe_j], [border_purpose_j],
    [border_duration_j], [border_party_j]. *)
Record slot : Type := mkSlot {
  s_mode : option Z; s_poe : option Z; s_purpose : option Z;
  s_duration : option Z; s_party : option Z }.

Record household : Type := mkHousehold {
  hhid : Z; slot1 : slot; slot2 : slot; slot3 : slot; slot4 : slot }.

(** A long row after [wide_to_long], before recoding. *)
Record long_row : Type := mkLong {
  l_hhid : Z; l_trip_id : Z; l_slot : slot }.

(** The occurrence group of suffix [j]. *)
Definition slot_at (h : household) (j : Z) : slot :=
  match j with
  | 1%Z => slot1 h
  | 2%Z => slot2 h
  | 3%Z => slot3 h
  | _ => slot4 h
  end.

(** [pd.wide_to_long(..., i="hhid", j="trip_id")]: one row per suffix 1..4
    and household, stacked suffix by suffix as [melt] does. *)
Definition wide_to_long (hs : list household) : list long_row :=
  flat_map (fun j => map (fun h => mkLong (hhid h) j (slot_at h j)) hs) [1; 2; 3; 4]%Z.

(** The code dictionaries; [Series.map] sends a code outside the dictionary,
    and a missing code, to a missing value. *)
Definition border_mode_map (c : option Z) : option string :=
  match c with
  | Some 1%Z => Some "My own vehicle (or motorcycle)"
  | Some 2%Z => Some "Other vehicle (e.g., rental, carshare, taxi, work car, friends)"
  | Some 3%Z => Some "Bus/shuttle"
  | Some 4%Z => Some "Walking (or biking)"
  | Some 5%Z => Some "Airplane (or helicopter)"
  | Some 97%Z => Some "Other way of traveling"
  | _ => None
  end.

Definition border_poe_map (c : option Z) : option string :=
  match c with
  | Some 1%Z => Some "Otay Mesa (SR-905) Port of Entry"
  | Some 2%Z => Some "San Ysidro (I-5/I-805) Port of Entry"
  | Some 3%Z => Some "Tecate (SR 188) Port of Entry"
  | Some 4%Z => Some "Cross-border Terminal, Tijuana Intl Airport (pedestrian only)"
  | Some 97%Z => Some "Other"
  | _ => None
  end.

Definition border_purpose_map (c : option Z) : option string :=
  match c with
  | Some 1%Z => Some "Drop-off/pick-up someone (e.g., at Tijuana Intl Airport)"
  | Some 2%Z => Some "Social (visit friends/family)"
  | Some 3%Z => Some "Leisure/recreation/vacation"
  | Some 4%Z => Some "Work/business-related"
  | Some 5%Z => Some "Personal business (e.g., medical appointment)"
  | Some 97%Z => Some "Other"
  | _ => None
  end.

Definition border_duration_map (c : option Z) : option string :=
  match c with
  | Some 1%Z => Some "Less than 1 day"
  | Some 2%Z => Some "1-2 days"
  | Some 3%Z => Some "3-5 days"
  | Some 4%Z => Some "6-10 days"
  | Some 5%Z => Some "More than 10 days"
  | _ => None
  end.

Definition border_party_map (c : option Z) : option string :=
  match c with
  | Some 1%Z => Some "1 (I traveled alone)"
  | Some 2%Z => Some "2 persons total"
  | Some 3%Z => Some "3 persons total"
  | Some 4%Z => Some "4 persons total"
  | Some 5%Z => Some "5 or more persons total (including me)"
  | _ => None
  end.

(** A recoded long row: the index (hhid, trip_id) and the five fields. *)
Record rec_row : Type := mkRec {
  r_hhid : Z; r_trip_id : Z;
  r_mode : option string; r_poe : option string; r_purpose : option string;
  r_duration : option string; r_party : option string }.

Definition recode (l : long_row) : rec_row :=
  let s := l_slot l in
  mkRec (l_hhid l) (l_trip_id l)
        (border_mode_map (s_mode s)) (border_poe_map (s_poe s))
        (border_purpose_map (s_purpose s)) (border_duration_map (s_duration s))
        (border_party_map (s_party s)).

(** [df.dropna()] (default [how="any"]) over the five data columns; hhid
    and trip_id are the index, not columns. *)
Definition has_no_na (r : rec_row) : bool :=
  negb (isnull (option_map CStr (r_mode r)) || isnull (option_map CStr (r_poe r)) ||
        isnull (option_map CStr (r_purpose r)) || isnull (option_map CStr (r_duration r)) ||
        isnull (option_map CStr (r_party r))).

Definition dropna (rs : list rec_row) : list rec_row := filter has_no_na rs.

(** [df["border_trip_id"] = np.arange(len(df))] *)
Fixpoint number_from (n : nat) (rs : list rec_row) : list (nat * rec_row) :=
  match rs with
  | [] => []
  | r :: t => (n, r) :: number_from (S n) t
  end.

Definition border_trips (hs : list household) : list (nat * rec_row) :=
  number_from 0 (dropna (map recode (wide_to_long hs))).

(** A slot with every field empty. *)
Definition slot_empty (s : slot) : bool :=
  isnull (option_map CInt (s_mode s)) && isnull (option_map CInt (s_poe s)) &&
  isnull (option_map CInt (s_purpose s)) && isnull (option_map CInt (s_duration s)) &&
  isnull (option_map CInt (s_party s)).

Definition empty_slot : slot := mkSlot None None None None None.

(** Every field of the slot is a code of its dictionary. *)
Definition slot_mapped (s : slot) : Prop :=
  (border_mode_map (s_mode s) <> None) /\ (border_poe_map (s_poe s) <> None) /\
  (border_purpose_map (s_purpose s) <> None) /\
  (border_duration_map (s_duration s) <> None) /\ (border_party_map (s_party s) <> None).

End Border.

(** ** The geometry encoder: [SurveyData.line_wkt]

    The coordinate transformation (pyproj), the validity check and the WKT
    writer (shapely) are external collaborators; they are parameters of the
    encoder.  Coordinates are any type with a decidable equality, which is
    what the test [x not in points] uses. *)

Module Geometry.

Inductive geom (P : Type) : Type :=
| GPoint (p : P)
| GLine (ps : list P).
Arguments GPoint {P} p.
Arguments GLine {P} ps.

Record geo_lib (P : Type) : Type := mkGeoLib {
  transform : P -> P;            (* transformer.transform, always_xy *)
  is_valid : geom P -> bool;     (* value.is_valid *)
  to_wkt : geom P -> string }.   (* value.wkt *)
Arguments transform {P} g p.
Arguments is_valid {P} g x.
Arguments to_wkt {P} g x.

(** [ops.transform(f, geom)]: [f] applied to every vertex. *)
Definition geom_transform {P} (f : P -> P) (g : geom P) : geom P :=
  match g with
  | GPoint p => GPoint (f p)
  | GLine ps => GLine (map f ps)
  end.

Section Encoder.
Context {P : Type} (P_eq_dec : forall x y : P, {x = y} + {x <> y}).

(** One step of [[points.append(x) for x in line if x not in points]]. *)
Definition dedup_step (points : list P) (x : P) : list P :=
  if in_dec P_eq_dec x points then points else (points ++ [x])%list.

(** [points = []; [points.append(x) for x in line if x not in points]] *)
Definition dedup (line : list P) : list P := fold_left dedup_step line [].

(** The outcome for one line: a value appended to [wkts], or the
    [AttributeError] of [None.is_valid]. *)
Inductive outcome : Type :=
| Value (w : option string)
| AttributeError.

Definition line_wkt_one (g : geo_lib P) (line : list P) : outcome :=
  if (0 <? length line)%nat then
    let points := dedup line in
    let value :=
      if (2 <=? length points)%nat then Some (geom_transform (transform g) (GLine points))
      else match points with
           | [p] => Some (geom_transform (transform g) (GPoint p))
           | _ => None
           end in
    match value with
    | Some v => if is_valid g v then Value (Some (to_wkt g v)) else Value None
    | None => AttributeError
    end
  else Value None.

(** [line_wkt(lines, crs)]: the list [wkts], or [None] if an exception is
    raised for some line. *)
Fixpoint line_wkt (g : geo_lib P) (lines : list (list P)) : option (list (option string)) :=
  match lines with
  | [] => Some []
  | l :: ls =>
      match line_wkt_one g l, line_wkt g ls with
      | Value w, Some ws => Some (w :: ws)
      | _, _ => None
      end
  end.

End Encoder.

(** [point_wkt(coordinates, crs)]: one entry per coordinate pair, the text of
    the transformed point, or [np.NaN] (here [None]) if it is not valid. *)
Definition point_wkt {P : Type} (g : geo_lib P) (coordinates : list P) : list (option string) :=
  map (fun xy => let value := geom_transform (transform g) (GPoint xy) in
                 if is_valid g value then Some (to_wkt g value) else None)
      coordinates.

(** Python's [==] on (longitude, latitude) tuples of integers. *)
Definition pair_eq_dec (x y : Z * Z) : {x = y} + {x <> y}.
Proof. decide equality; apply Z.eq_dec. Defined.

End Geometry.

(** ** Diagnostic frequencies: [SurveyData.frequencies]

    The counts of the [n] list and of the category tables; the rounded
    percentages are not modelled. *)

Module Frequencies.

Record column : Type := mkColumn {
  field : string;
  is_category : bool;              (* [col.dtype.name == "category"] *)
  categories : list cell;          (* [col.cat.categories]: text or numbers *)
  values : list (option cell) }.

(** [series.sum()] of a boolean series. *)
Definition count (f : option cell -> bool) (col : list (option cell)) : Z :=
  Z.of_nat (length (filter f col)).

(** The [n] (non-missing) and [m] (missing) counts of one column. *)
Definition n_m (user_missing : list string) (c : column) : Z * Z :=
  let col := values c in
  if is_category c then
    let n := (count (fun v => negb (isnull v)) col - count (fun v => isin v user_missing) col)%Z in
    let m := (count isnull col + count (fun v => isin v user_missing) col)%Z in
    (n, m)
  else
    (count (fun v => negb (isnull v)) col, count isnull col).

(** Equality of two category labels. *)
Definition cell_eq_dec (x y : cell) : {x = y} + {x <> y}.
Proof.
  decide equality; [apply string_dec | apply Z.eq_dec |].
  destruct q, q0. decide equality; [apply Pos.eq_dec | apply Z.eq_dec].
Defined.

(** A row holds the category [k]. *)
Definition holds (k : cell) (v : option cell) : bool :=
  match v with Some x => if cell_eq_dec x k then true else false | None => false end.

(** [col.value_counts().reindex(col.cat.categories.values)]: the number of
    rows holding each category, in category order. *)
Definition category_counts (c : column) : list (cell * Z) :=
  map (fun k => (k, count (holds k) (values c))) (categories c).

(** The returned [n] list: [field, n, m] for every column, in column order. *)
Definition n_list (user_missing : list string) (df : list column) : list (string * Z * Z) :=
  map (fun c => let '(n, m) := n_m user_missing c in (field c, n, m)) df.

(** The returned [freq] list: the table of every category column. *)
Definition values_list (df : list column) : list (string * list (cell * Z)) :=
  map (fun c => (field c, category_counts c)) (filter is_category df).

End Frequencies.

(** ** Location paths: [SurveyData.location] *)

Module Location.

Module ZOrder <: Orders.TotalLeBool'.
Definition t := Z.
Definition leb := Z.leb.
Definition leb_total : forall x y, leb x y = true \/ leb y x = true.
Proof. intros x y. unfold leb. rewrite !Z.leb_le. lia. Defined.
End ZOrder.

Module ZSort := Mergesort.Sort ZOrder.

Section Location.
Context {C : Type} (C_eq_dec : forall x y : C, {x = y} + {x <> y}).

(** A location point: [collected_at] is read from the CSV as text. *)
Record point : Type := mkPoint {
  tripid : Z; collected_at : string; lng : C; lat : C }.

(** The order of [sort_values(by=["tripid", "collected_at"])]. *)
Definition point_le (a b : point) : Prop :=
  (tripid a < tripid b)%Z \/
  (tripid a = tripid b /\ String.leb (collected_at a) (collected_at b) = true).

(** The sort is not stable, so it is modelled by what it returns: some
    reordering of the points that is sorted by (tripid, collected_at). *)
Definition sort_values (ps ps' : list point) : Prop :=
  Permutation ps ps' /\ StronglySorted point_le ps'.

Definition coordinates (p : point) : C * C := (lng p, lat p).

(** Python's [==] on (longitude, latitude) tuples. *)
Definition coord_eq_dec (x y : C * C) : {x = y} + {x <> y}.
Proof. decide equality. Defined.

(** The group keys of [groupby("tripid")] (default [sort=True]). *)
Definition group_keys (ps : list point) : list Z :=
  ZSort.sort (nodup Z.eq_dec (map tripid ps)).

(** [groupby("tripid")["coordinates"].apply(list)]: each group's coordinates
    in row order. *)
Definition lines_of (ps : list point) : list (Z * list (C * C)) :=
  map (fun t => (t, map coordinates (filter (fun p => (tripid p =? t)%Z) ps)))
      (group_keys ps).

(** The [lines] data set: the sorted points' paths, and their shapes. *)
Definition location_lines (ps : list point) (lines : list (Z * list (C * C))) : Prop :=
  exists ps', sort_values ps ps' /\ lines = lines_of ps'.

Definition line_shapes (g : Geometry.geo_lib (C * C)) (lines : list (Z * list (C * C)))
  : option (list (option string)) :=
  Geometry.line_wkt coord_eq_dec g (map snd lines).

End Location.

End Location.

(** * Proofs *)

(** ** Generic lemmas on recode steps *)

Lemma run_steps_cons (s : step) (ss : list step) (r : row) :
  run_steps (s :: ss) r = run_steps ss (apply_step s r).
Proof. reflexivity. Qed.

Lemma run_steps_app (ss1 ss2 : list step) (r : row) :
  run_steps (ss1 ++ ss2) r = run_steps ss2 (run_steps ss1 r).
Proof. unfold run_steps. apply fold_left_app. Qed.

Lemma apply_step_frame (s : step) (r : row) (c : string) :
  mem c (step_targets s) = false -> apply_step s r c = r c.
Proof.
  destruct s as [g cols v | col v | col f]; cbn [step_targets apply_step]; intros H.
  - destruct (g r); [now rewrite H | reflexivity].
  - unfold mem in H. cbn [existsb] in H. rewrite orb_false_r in H.
    now rewrite H.
  - unfold mem in H. cbn [existsb] in H. rewrite orb_false_r in H.
    now rewrite H.
Qed.

Lemma run_steps_frame (ss : list step) (r : row) (c : string) :
  writes c ss = false -> run_steps ss r c = r c.
Proof.
  revert r; induction ss as [|s ss IH]; intros r H; [reflexivity|].
  cbn [writes existsb] in H. apply orb_false_iff in H as [H1 H2].
  rewrite run_steps_cons, IH by exact H2. now apply apply_step_frame.
Qed.

Lemma apply_step_keeps (s : step) (r : row) (c x : string) :
  keeps c x s = true -> r c = Some (CStr x) -> apply_step s r c = Some (CStr x).
Proof.
  destruct s as [g cols v | col v | col f]; cbn [keeps apply_step]; intros Hk Hr.
  - destruct (g r); [|exact Hr].
    destruct (mem c cols) eqn:Hm; [|exact Hr].
    cbn in Hk. destruct v as [y| |]; try discriminate.
    apply String.eqb_eq in Hk. now subst.
  - destruct (String.eqb c col); now rewrite Hr.
  - apply negb_true_iff in Hk. now rewrite Hk.
Qed.

Lemma run_steps_keeps (ss : list step) (r : row) (c x : string) :
  forallb (keeps c x) ss = true -> r c = Some (CStr x) ->
  run_steps ss r c = Some (CStr x).
Proof.
  revert r; induction ss as [|s ss IH]; intros r Hk Hr; [exact Hr|].
  cbn [forallb] in Hk. apply andb_true_iff in Hk as [H1 H2].
  rewrite run_steps_cons. apply IH; [exact H2|]. now apply apply_step_keeps.
Qed.

Lemma apply_locset_hit (g : row -> bool) (cols : list string) (v : cell) (r : row) (c : string) :
  g r = true -> mem c cols = true -> apply_step (LocSet g cols v) r c = Some v.
Proof. intros Hg Hm. cbn [apply_step]. now rewrite Hg, Hm. Qed.

Lemma isin_sub (v : option cell) (l1 l2 : list string) :
  (forall x, In x l1 -> In x l2) -> isin v l2 = false -> isin v l1 = false.
Proof.
  destruct v as [[y| |]|]; cbn; try reflexivity.
  intros Hsub H. apply not_true_iff_false. intros H1.
  apply existsb_exists in H1 as [x [Hx Hy]].
  apply not_true_iff_false in H. apply H, existsb_exists.
  exists x. split; [now apply Hsub | exact Hy].
Qed.



(** ** The day table *)

(** A [LocSet] step, column by column. *)
Lemma apply_locset (g : row -> bool) (cols : list string) (v : cell) (r : row) (c : string) :
  apply_step (LocSet g cols v) r c = if g r then (if mem c cols then Some v else r c) else r c.
Proof. cbn [apply_step]. now destruct (g r). Qed.

Lemma day_frame (r : row) (c : string) :
  writes c Day.day_steps = false -> Day.day r c = r c.
Proof. intros H. unfold Day.day. now apply run_steps_frame. Qed.

(** A value [> 0] is not [== 0], for an integer and for a float. *)
Lemma num_gt0_not_eq0 (v : option cell) :
  num_gt0 v = true -> num_eq0 v = false.
Proof.
  destruct v as [[s|z|q]|]; cbn; try discriminate.
  - intros H. apply Z.ltb_lt in H. apply Z.eqb_neq. lia.
  - intros H. apply negb_true_iff in H. apply not_true_iff_false. intros E.
    apply Qeq_bool_iff in E. apply not_true_iff_false in H. apply H.
    apply Qle_bool_iff. rewrite E. apply Qle_refl.
Qed.

(** C6: in every day row, [number_trips > 0] gives [made_trips = "Yes"] and
    [number_trips == 0] gives [made_trips = "No"], for an integer or a float
    [number_trips] and whatever [made_trips] value the source supplied. *)
Theorem day_made_trips_follows_number_trips (r : row) :
  (num_gt0 (Day.day r "num_trips") = true ->
   Day.day r "trips_yesno" = Some (CStr "Yes")) /\
  (num_eq0 (Day.day r "num_trips") = true ->
   Day.day r "trips_yesno" = Some (CStr "No")).
Proof.
  rewrite !(day_frame r "num_trips") by reflexivity.
  unfold Day.day, Day.day_steps. do 2 rewrite run_steps_cons.
  rewrite run_steps_frame by reflexivity.
  rewrite apply_locset. cbv beta.
  rewrite (apply_step_frame _ r "num_trips") by reflexivity.
  rewrite apply_locset. cbv beta.
  split; intros Hc.
  - rewrite (num_gt0_not_eq0 _ Hc), Hc. reflexivity.
  - rewrite Hc. reflexivity.
Qed.

Lemma day_made_trips_follows_number_trips_witness :
  let r := fun c => if String.eqb c "num_trips" then Some (CNum (3 # 1))
                    else if String.eqb c "trips_yesno" then Some (CStr "No")
                    else None in
  num_gt0 (Day.day r "num_trips") = true /\ Day.day r "trips_yesno" = Some (CStr "Yes").
Proof.
  intros r. assert (H : num_gt0 (Day.day r "num_trips") = true) by (vm_compute; reflexivity).
  split; [exact H|]. exact (proj1 (day_made_trips_follows_number_trips r) H).
Defined.


(** ** The persons table *)

(** C7: in every person row whose [age_category] is "Under 5 years old" or
    "5-15 years", [employment_status] is "Not Applicable"; no recode after
    the age 16+ recode writes another value there. *)
Lemma persons_frame (r : row) (c : string) :
  writes c Persons.persons_steps = false -> Persons.persons r c = r c.
Proof. intros H. unfold Persons.persons. now apply run_steps_frame. Qed.

Lemma persons_unfold (r : row) :
  Persons.persons r =
  run_steps Persons.steps_post
    (apply_step Persons.step_military
       (run_steps Persons.steps_mid (apply_step Persons.step_age16 r))).
Proof.
  unfold Persons.persons, Persons.persons_steps.
  rewrite run_steps_cons, run_steps_app, run_steps_cons. reflexivity.
Qed.

Theorem persons_under16_employment_not_applicable (r : row) :
  Persons.persons r "age" = Some (CStr "Under 5 years old") \/
  Persons.persons r "age" = Some (CStr "5-15 years") ->
  Persons.persons r "employment" = Some (CStr NA).
Proof.
  rewrite !persons_frame by reflexivity.
  intros Hage. unfold Persons.persons, Persons.persons_steps.
  rewrite run_steps_cons.
  apply run_steps_keeps; [reflexivity|].
  unfold Persons.step_age16. apply apply_locset_hit; [|reflexivity].
  cbv beta. destruct Hage as [H|H]; rewrite H; reflexivity.
Qed.

Lemma persons_under16_employment_not_applicable_witness :
  let r := fun c => if String.eqb c "age" then Some (CStr "5-15 years")
                    else if String.eqb c "employment" then Some (CStr "Employed full-time")
                    else None in
  Persons.persons r "age" = Some (CStr "5-15 years") /\
  Persons.persons r "employment" = Some (CStr NA).
Proof.
  intros r. split; [vm_compute; reflexivity|].
  apply persons_under16_employment_not_applicable. right. vm_compute. reflexivity.
Defined.

(** The civilian-employment fields of claim C8 (source names). *)
Definition civilian_cols : list string :=
  ["occupation"; "industry"; "hours_work"; "commute_freq"; "commute_mode";
   "work_park_pay"; "work_park_cost_dk"; "work_park_ease"; "telecommute_freq";
   "commute_subsidy_none"; "commute_subsidy_parking"; "commute_subsidy_transit";
   "commute_subsidy_vanpool"; "commute_subsidy_cash"; "commute_subsidy_other";
   "commute_subsidy_specify"].

Lemma civilian_cols_military (c : string) :
  In c civilian_cols -> mem c Persons.military_cols = true.
Proof.
  revert c. apply forallb_forall. reflexivity.
Qed.

Lemma civilian_cols_kept (c : string) :
  In c civilian_cols -> forallb (keeps c NA) Persons.steps_post = true.
Proof.
  revert c. apply (forallb_forall (fun c => forallb (keeps c NA) Persons.steps_post)).
  reflexivity.
Qed.

(** C8: in every person row whose final military status is active duty
    (within or outside the San Diego region), occupation, industry,
    hours_worked, commute_frequency, commute_mode, the work parking fields,
    telecommute_frequency and every commute-subsidy field are
    "Not Applicable": the later commute recodes only write the same label. *)
Theorem persons_active_duty_civilian_fields_not_applicable (r : row) (c : string) :
  Persons.persons r "military" = Some (CStr "Active duty within the San Diego region") \/
  Persons.persons r "military" = Some (CStr "Active duty outside of the San Diego region") ->
  In c civilian_cols ->
  Persons.persons r c = Some (CStr NA).
Proof.
  intros Hm Hc. rewrite persons_unfold in *.
  set (r1 := run_steps Persons.steps_mid (apply_step Persons.step_age16 r)) in *.
  rewrite run_steps_frame in Hm by reflexivity.
  rewrite apply_step_frame in Hm by reflexivity.
  apply run_steps_keeps; [now apply civilian_cols_kept|].
  unfold Persons.step_military. apply apply_locset_hit.
  - cbv beta. destruct Hm as [H|H]; rewrite H; reflexivity.
  - now apply civilian_cols_military.
Qed.

Lemma persons_active_duty_civilian_fields_not_applicable_witness :
  let r := fun c => if String.eqb c "age" then Some (CStr "35-44 years")
                    else if String.eqb c "military"
                         then Some (CStr "Active duty within the San Diego region")
                    else if String.eqb c "occupation" then Some (CStr "Other")
                    else None in
  Persons.persons r "military" = Some (CStr "Active duty within the San Diego region") /\
  In "occupation" civilian_cols /\
  Persons.persons r "occupation" = Some (CStr NA).
Proof.
  intros r. split; [vm_compute; reflexivity|]. split; [simpl; tauto|].
  apply persons_active_duty_civilian_fields_not_applicable; [left; vm_compute; reflexivity|].
  simpl; tauto.
Defined.

(** ** The trips table *)

Lemma apply_step_values (ok : cell -> bool) (s : step) (r : row) (c : string) :
  writes_only c ok s = true -> (forall x, r c = Some x -> ok x = true) ->
  forall x, apply_step s r c = Some x -> ok x = true.
Proof.
  intros Hw Hr x Hx. destruct s as [g cols v | col v | col f]; cbn [writes_only] in Hw.
  - rewrite apply_locset in Hx. destruct (g r); [|now apply Hr].
    destruct (mem c cols); [|now apply Hr].
    injection Hx as <-. exact Hw.
  - cbn [apply_step] in Hx. destruct (String.eqb c col); [|now apply Hr].
    destruct (r c) eqn:E; [now apply Hr|]. injection Hx as <-. exact Hw.
  - cbn [apply_step] in Hx. apply negb_true_iff in Hw. rewrite Hw in Hx. now apply Hr.
Qed.

Lemma run_steps_values (ok : cell -> bool) (ss : list step) (r : row) (c : string) :
  forallb (writes_only c ok) ss = true -> (forall x, r c = Some x -> ok x = true) ->
  forall x, run_steps ss r c = Some x -> ok x = true.
Proof.
  revert r; induction ss as [|s ss IH]; intros r Hw Hr; [exact Hr|].
  cbn [forallb] in Hw. apply andb_true_iff in Hw as [H1 H2].
  rewrite run_steps_cons. apply IH; [exact H2|].
  now apply apply_step_values.
Qed.

Lemma weights_frame (r : row) (c : string) :
  c <> "weight_person_trip" -> c <> "weight_trip" -> Trips.weights r c = r c.
Proof.
  intros H1 H2. apply String.eqb_neq in H1, H2.
  unfold Trips.weights, Trips.loc_new. cbv zeta.
  destruct (_ && _); now rewrite ?H1, ?H2.
Qed.

Lemma trips_steps_eq (r : row) (c : string) :
  c <> "weight_person_trip" -> c <> "weight_trip" ->
  Trips.trips r c = run_steps Trips.trips_steps r c.
Proof. intros H1 H2. unfold Trips.trips. now apply weights_frame. Qed.

Lemma trips_modes (r : row) (m : string) :
  In m Trips.mode_cols -> Trips.trips r m = r m.
Proof.
  intros Hm. rewrite trips_steps_eq.
  - apply run_steps_frame.
    destruct Hm as [<-|[<-|[<-|[<-|[]]]]]; reflexivity.
  - destruct Hm as [<-|[<-|[<-|[<-|[]]]]]; discriminate.
  - destruct Hm as [<-|[<-|[<-|[<-|[]]]]]; discriminate.
Qed.

(** The mode columns are not written by any recode step. *)
Lemma modes_frame (ss : list step) (r : row) (m : string) :
  forallb (fun m => negb (writes m ss)) Trips.mode_cols = true ->
  In m Trips.mode_cols -> run_steps ss r m = r m.
Proof.
  intros Hw Hm. apply run_steps_frame.
  apply negb_true_iff. revert m Hm. now apply forallb_forall.
Qed.

Lemma no_mode_in_true (l : list string) (r : row) :
  (forall m, In m Trips.mode_cols -> isin (r m) l = false) ->
  Trips.no_mode_in l r = true.
Proof.
  intros H. unfold Trips.no_mode_in.
  rewrite !H by (simpl; tauto). reflexivity.
Qed.

Definition auto_result_cols : list string :=
  ["toll_no"; "toll_express"; "driver"; "parklocation"].

(** C3: in every trip row where none of mode_1..mode_4 is in the auto-mode
    set, toll_road, toll_road_express, driver and parking_location are
    "Not Applicable"; the driver/parking recode keys on the non-taxi auto
    modes, a subset of the auto modes, so it fires as well. *)
Theorem trips_no_auto_mode_toll_driver_parking_not_applicable (r : row) (c : string) :
  (forall m, In m Trips.mode_cols -> isin (Trips.trips r m) Trips.auto_modes = false) ->
  In c auto_result_cols ->
  Trips.trips r c = Some (CStr NA).
Proof.
  intros Hm Hc.
  rewrite trips_steps_eq
    by (destruct Hc as [<-|[<-|[<-|[<-|[]]]]]; discriminate).
  unfold Trips.trips_steps. rewrite run_steps_app. do 2 rewrite run_steps_cons.
  apply run_steps_keeps;
    [destruct Hc as [<-|[<-|[<-|[<-|[]]]]]; reflexivity|].
  set (rp := run_steps Trips.steps_pre r).
  assert (Hrp : forall m, In m Trips.mode_cols -> isin (rp m) Trips.auto_modes = false).
  { intros m Hin. unfold rp. rewrite modes_frame by (reflexivity || exact Hin).
    rewrite <- trips_modes by exact Hin. now apply Hm. }
  destruct Hc as [<-|[<-|[<-|[<-|[]]]]].
  - apply apply_step_keeps; [reflexivity|].
    unfold Trips.step_auto. apply apply_locset_hit; [|reflexivity].
    now apply no_mode_in_true.
  - apply apply_step_keeps; [reflexivity|].
    unfold Trips.step_auto. apply apply_locset_hit; [|reflexivity].
    now apply no_mode_in_true.
  - unfold Trips.step_auto_nontaxi. apply apply_locset_hit; [|reflexivity].
    apply no_mode_in_true. intros m Hin.
    rewrite apply_step_frame by (destruct Hin as [<-|[<-|[<-|[<-|[]]]]]; reflexivity).
    apply (isin_sub _ _ Trips.auto_modes); [|now apply Hrp].
    intros x Hx. unfold Trips.auto_modes. simpl in Hx |- *. tauto.
  - unfold Trips.step_auto_nontaxi. apply apply_locset_hit; [|reflexivity].
    apply no_mode_in_true. intros m Hin.
    rewrite apply_step_frame by (destruct Hin as [<-|[<-|[<-|[<-|[]]]]]; reflexivity).
    apply (isin_sub _ _ Trips.auto_modes); [|now apply Hrp].
    intros x Hx. unfold Trips.auto_modes. simpl in Hx |- *. tauto.
Qed.

Lemma trips_no_auto_mode_toll_driver_parking_not_applicable_witness :
  let r := fun c => if String.eqb c "mode1" then Some (CStr "Walk/jog/wheelchair")
                    else if String.eqb c "driver" then Some (CStr "Driver")
                    else None in
  (forall m, In m Trips.mode_cols -> isin (Trips.trips r m) Trips.auto_modes = false) /\
  In "driver" auto_result_cols /\
  Trips.trips r "driver" = Some (CStr NA).
Proof.
  intros r.
  assert (Hm : forall m, In m Trips.mode_cols ->
                         isin (Trips.trips r m) Trips.auto_modes = false).
  { intros m Hin. destruct Hin as [<-|[<-|[<-|[<-|[]]]]]; vm_compute; reflexivity. }
  split; [exact Hm|]. split; [simpl; tauto|].
  apply trips_no_auto_mode_toll_driver_parking_not_applicable; [exact Hm|].
  simpl; tauto.
Defined.

Lemma trips_steps_split_rail :
  Trips.trips_steps =
  ((Trips.steps_pre ++ Trips.step_auto :: Trips.step_auto_nontaxi :: Trips.steps_park ++
    [Trips.step_taxi; Trips.step_taxi_cost; Trips.step_airtype; Trips.step_airfare] ++
    Trips.steps_bus) ++ Trips.step_rail :: Trips.steps_post)%list.
Proof. reflexivity. Qed.

Lemma trips_steps_split_airfare :
  Trips.trips_steps =
  ((Trips.steps_pre ++ Trips.step_auto :: Trips.step_auto_nontaxi :: Trips.steps_park ++
    [Trips.step_taxi; Trips.step_taxi_cost; Trips.step_airtype]) ++
   Trips.step_airfare :: Trips.steps_bus ++ Trips.step_rail :: Trips.steps_post)%list.
Proof. reflexivity. Qed.

(** C10: in every trip row where none of mode_1..mode_4 is "Bus",
    "Intercity bus" or "Express bus/Rapid", rail_pay_type is
    "Not Applicable": the rail recode tests the bus labels, so a trip made by
    rail only gets it too (see the witness). *)
Theorem trips_no_bus_mode_rail_pay_type_not_applicable (r : row) :
  (forall m, In m Trips.mode_cols ->
             isin (Trips.trips r m) ["Bus"; "Intercity bus"; "Express bus/Rapid"] = false) ->
  Trips.trips r "railtype" = Some (CStr NA).
Proof.
  intros Hm. rewrite trips_steps_eq by discriminate.
  rewrite trips_steps_split_rail, run_steps_app, run_steps_cons.
  apply run_steps_keeps; [reflexivity|].
  unfold Trips.step_rail. apply apply_locset_hit; [|reflexivity].
  apply no_mode_in_true. intros m Hin.
  rewrite modes_frame by (reflexivity || exact Hin).
  rewrite <- trips_modes by exact Hin. now apply Hm.
Qed.

Lemma trips_no_bus_mode_rail_pay_type_not_applicable_witness :
  let r := fun c => if String.eqb c "mode1" then Some (CStr "Rail - Light")
                    else if String.eqb c "mode2" then Some (CStr "San Diego Coaster Line")
                    else if String.eqb c "railtype" then Some (CStr "Used pass (any type)")
                    else None in
  (forall m, In m Trips.mode_cols ->
             isin (Trips.trips r m) ["Bus"; "Intercity bus"; "Express bus/Rapid"] = false) /\
  Trips.trips r "railtype" = Some (CStr NA).
Proof.
  intros r.
  assert (Hm : forall m, In m Trips.mode_cols ->
             isin (Trips.trips r m) ["Bus"; "Intercity bus"; "Express bus/Rapid"] = false).
  { intros m Hin. destruct Hin as [<-|[<-|[<-|[<-|[]]]]]; vm_compute; reflexivity. }
  split; [exact Hm|]. now apply trips_no_bus_mode_rail_pay_type_not_applicable.
Defined.

Lemma dict_map_label (d : Trips.dict) (code : option Z) (x : cell) :
  Trips.dict_map d code = Some x -> exists s, x = CStr s /\ In s (map snd d).
Proof.
  unfold Trips.dict_map. destruct (find _ d) as [[k label]|] eqn:E; [|discriminate].
  intros H. injection H as <-. exists label. split; [reflexivity|].
  apply find_some in E as [Hin _]. apply (in_map snd) in Hin. exact Hin.
Qed.

Definition airfare_ok (x : cell) : bool :=
  negb (isin (Some x) ["Personally paid the airfare cost"; "Employer paid 100%"]).

(** C9: in every trip row, airplane_cost_dk is "Not Applicable": its recode
    tests taxi_pay_type for two airfare labels that taxi_pay_type, recoded by
    its own dictionary or set to "Not Applicable", never holds. *)
Theorem trips_airplane_cost_dk_not_applicable (r : row) (code : option Z) :
  Trips.trips (Trips.set_col r "taxitype" (Trips.dict_map Trips.taxitype_dict code))
              "airfare_cost_dk" = Some (CStr NA).
Proof.
  set (r0 := Trips.set_col r "taxitype" (Trips.dict_map Trips.taxitype_dict code)).
  rewrite trips_steps_eq by discriminate.
  rewrite trips_steps_split_airfare, run_steps_app, run_steps_cons.
  apply run_steps_keeps; [reflexivity|].
  unfold Trips.step_airfare. apply apply_locset_hit; [|reflexivity].
  cbv beta.
  destruct (run_steps _ r0 "taxitype") as [x|] eqn:E; [|reflexivity].
  apply (run_steps_values airfare_ok) in E; [exact E|reflexivity|].
  intros y Hy. unfold r0, Trips.set_col in Hy. cbn in Hy.
  apply dict_map_label in Hy as [s [-> Hs]].
  revert s Hs. apply (forallb_forall (fun s => airfare_ok (CStr s))). reflexivity.
Qed.

(** C1, as the code has it: weight_person_trip is 1 exactly when
    number_household_survey_weekdays >= 1 and missing otherwise; weight_trip
    is missing when that precondition fails, 1 / travelers_household when it
    holds and travelers_household is in 1..10, and 1 when it holds and
    travelers_household is outside 1..10 or missing. *)
Theorem trips_weights_spec (r : row) :
  let t := Trips.trips r in
  t "weight_person_trip" =
    (if num_ge1 (t "h_complete_weekdays") then Some (CNum 1) else None) /\
  t "weight_trip" =
    (if num_ge1 (t "h_complete_weekdays") then
       match t "travelers_hh" with
       | Some (CInt z) =>
           if ((1 <=? z) && (z <=? 10))%Z then Some (CNum (1 / inject_Z z))
           else Some (CNum 1)
       | _ => Some (CNum 1)
       end
     else None).
Proof.
  intros t. unfold t, Trips.trips.
  generalize (run_steps Trips.trips_steps r) as rr. intros rr.
  rewrite (weights_frame rr "h_complete_weekdays"), (weights_frame rr "travelers_hh")
    by discriminate.
  destruct (num_ge1 (rr "h_complete_weekdays")) eqn:Eh;
    destruct (rr "travelers_hh") as [[s|z|q]|] eqn:Et;
    unfold Trips.weights, Trips.loc_new, Trips.travelers_valid; simpl;
    rewrite ?Eh, ?Et; simpl; try (split; reflexivity).
  destruct ((1 <=? z) && (z <=? 10))%Z; simpl; rewrite ?Et; split; reflexivity.
Qed.

(** C1 as stated fails: a trip whose household has a complete weekday and
    whose travelers_household is "Missing" gets weight_trip = 1, not an
    unset weight. *)
Lemma trips_weight_trip_counterexample :
  let r := Trips.set_col (Trips.set_col (fun _ => None) "h_complete_weekdays"
                                        (Some (CInt 1)))
                         "travelers_hh" (Some (CStr "Missing")) in
  Trips.trips r "h_complete_weekdays" = Some (CInt 1) /\
  Trips.trips r "travelers_hh" = Some (CStr "Missing") /\
  Trips.trips r "weight_trip" = Some (CNum 1) /\
  Trips.trips r "weight_trip" <> None.
Proof.
  intros r. vm_compute. split; [reflexivity|]. split; [reflexivity|].
  split; [reflexivity|discriminate].
Qed.

(** ** The vehicles table *)

Module VehicleProofs.
Import Vehicles.

Lemma key_eqb_eq (a b : key) : key_eqb a b = true <-> a = b.
Proof.
  destruct a as [a1 a2], b as [b1 b2]. unfold key_eqb; cbn.
  rewrite andb_true_iff, !Z.eqb_eq. split; [intros [-> ->]; reflexivity|].
  intros H; injection H as -> ->; split; reflexivity.
Qed.

Lemma key_ltb_iff (a b : key) :
  key_ltb a b = true <-> (fst a < fst b \/ (fst a = fst b /\ snd a < snd b))%Z.
Proof.
  unfold key_ltb. rewrite orb_true_iff, andb_true_iff, Z.ltb_lt, Z.eqb_eq, Z.ltb_lt.
  reflexivity.
Qed.

Lemma key_leb_iff (a b : key) :
  key_leb a b = true <->
  (fst a < fst b \/ (fst a = fst b /\ snd a <= snd b))%Z.
Proof.
  unfold key_leb. rewrite orb_true_iff, key_ltb_iff.
  destruct a as [a1 a2], b as [b1 b2]. cbn. unfold key_eqb; cbn.
  rewrite andb_true_iff, !Z.eqb_eq. lia.
Qed.

Lemma key_leb_total (a b : key) : key_leb a b = false -> key_leb b a = true.
Proof.
  intros H. apply key_leb_iff.
  assert (~ (fst a < fst b \/ (fst a = fst b /\ snd a <= snd b))%Z) as Hn.
  { intros Hc. apply key_leb_iff in Hc. congruence. }
  lia.
Qed.

Lemma key_leb_trans (a b c : key) :
  key_leb a b = true -> key_leb b c = true -> key_leb a c = true.
Proof. rewrite !key_leb_iff. lia. Qed.

Definition le_key (a b : key) : Prop := key_leb a b = true.

Lemma insert_key_perm (k : key) (l : list key) : Permutation (insert_key k l) (k :: l).
Proof.
  induction l as [|h t IH]; cbn; [reflexivity|].
  destruct (key_leb k h); [reflexivity|].
  rewrite IH. apply perm_swap.
Qed.

Lemma sort_keys_perm (l : list key) : Permutation (sort_keys l) l.
Proof.
  induction l as [|h t IH]; cbn; [reflexivity|].
  rewrite insert_key_perm. now apply perm_skip.
Qed.

Lemma insert_key_sorted (k : key) (l : list key) :
  Sorted le_key l -> Sorted le_key (insert_key k l).
Proof.
  induction 1 as [|h t Hs IH Hhd]; cbn.
  - repeat constructor.
  - destruct (key_leb k h) eqn:E.
    + constructor; [constructor; assumption|]. constructor. exact E.
    + constructor; [exact IH|].
      destruct t as [|h' t']; cbn.
      * constructor. now apply key_leb_total.
      * inversion Hhd; subst. destruct (key_leb k h');
          constructor; [now apply key_leb_total | assumption].
Qed.

Lemma sort_keys_sorted (l : list key) : StronglySorted le_key (sort_keys l).
Proof.
  apply Sorted_StronglySorted.
  - intros a b c. apply key_leb_trans.
  - induction l as [|h t IH]; cbn; [constructor|]. now apply insert_key_sorted.
Qed.

Definition unique_step (seen : list key) (k : key) : list key :=
  if existsb (key_eqb k) seen then seen else (seen ++ [k])%list.

Lemma existsb_key (k : key) (l : list key) : existsb (key_eqb k) l = true <-> In k l.
Proof.
  rewrite existsb_exists. split.
  - intros [x [Hx E]]. apply key_eqb_eq in E. now subst.
  - intros H. exists k. split; [exact H|]. now apply key_eqb_eq.
Qed.

Lemma unique_fold_spec (ks seen : list key) :
  NoDup seen ->
  NoDup (fold_left unique_step ks seen) /\
  (forall k, In k (fold_left unique_step ks seen) <-> In k seen \/ In k ks).
Proof.
  revert seen; induction ks as [|k ks IH]; intros seen Hnd; cbn.
  - split; [exact Hnd|]. intros k; tauto.
  - assert (Hnd' : NoDup (unique_step seen k)).
    { unfold unique_step. destruct (existsb (key_eqb k) seen) eqn:E; [exact Hnd|].
      apply NoDup_app; [exact Hnd | repeat constructor; auto |].
      intros x Hx Hy. destruct Hy as [<-|[]].
      apply not_true_iff_false in E. apply E, existsb_key, Hx. }
    destruct (IH _ Hnd') as [H1 H2]. split; [exact H1|].
    intros x. rewrite H2. unfold unique_step.
    destruct (existsb (key_eqb k) seen) eqn:E.
    + apply existsb_key in E. split; [tauto|].
      intros [Hx|[<-|Hx]]; tauto.
    + rewrite in_app_iff. cbn. split; intros; intuition congruence.
Qed.

Lemma unique_keys_nodup (ks : list key) : NoDup (unique_keys ks).
Proof. apply (unique_fold_spec ks []). constructor. Qed.

Lemma unique_keys_in (ks : list key) (k : key) : In k (unique_keys ks) <-> In k ks.
Proof.
  unfold unique_keys. fold unique_step.
  rewrite (proj2 (unique_fold_spec ks [] (NoDup_nil _))). cbn. tauto.
Qed.

Lemma key_ltb_iff_leb_neq (a b : key) : key_ltb a b = true <-> key_leb a b = true /\ a <> b.
Proof.
  rewrite key_ltb_iff, key_leb_iff. destruct a as [a1 a2], b as [b1 b2]. cbn.
  split.
  - intros H. split; [lia|]. intros E. injection E as -> ->. lia.
  - intros [H Hne]. destruct (Z.eq_dec a1 b1) as [->|]; [|lia].
    destruct (Z.eq_dec a2 b2) as [->|]; [congruence|lia].
Qed.

Lemma filter_all_false (f : key -> bool) (l : list key) :
  (forall x, In x l -> f x = false) -> filter f l = [].
Proof.
  induction l as [|h t IH]; intros H; cbn; [reflexivity|].
  rewrite H by (left; reflexivity). apply IH. intros x Hx. apply H. now right.
Qed.

Lemma filter_perm_length (f : key -> bool) (l l' : list key) :
  Permutation l l' -> length (filter f l) = length (filter f l').
Proof.
  induction 1; cbn.
  - reflexivity.
  - destruct (f x); cbn; congruence.
  - destruct (f x), (f y); reflexivity.
  - congruence.
Qed.

(** In a sorted list of distinct keys, the position of a key is the number
    of keys below it. *)
Lemma index_rank (s : list key) (k : key) :
  StronglySorted le_key s -> NoDup s -> In k s ->
  index_of k s = length (filter (fun x => key_ltb x k) s).
Proof.
  induction s as [|h t IH]; intros Hs Hnd Hin; [destruct Hin|].
  apply StronglySorted_inv in Hs as [Hst Hall].
  apply NoDup_cons_iff in Hnd as [Hnin Hndt].
  rewrite Forall_forall in Hall.
  cbn. destruct (key_eqb k h) eqn:E.
  - apply key_eqb_eq in E. subst k.
    destruct (key_ltb h h) eqn:Ehh.
    { apply key_ltb_iff_leb_neq in Ehh. now destruct Ehh. }
    rewrite filter_all_false; [reflexivity|].
    intros x Hx. apply not_true_iff_false. intros Hlt.
    apply key_ltb_iff_leb_neq in Hlt as [Hle Hne].
    apply Hne. specialize (Hall x Hx). unfold le_key in Hall.
    rewrite key_leb_iff in Hle, Hall. destruct x as [x1 x2], h as [h1 h2]. cbn in *.
    f_equal; lia.
  - assert (Hk : In k t).
    { destruct Hin as [Heq|Hin]; [subst k|exact Hin].
      exfalso. assert (key_eqb h h = true) by now apply key_eqb_eq. congruence. }
    assert (Hlt : key_ltb h k = true).
    { apply key_ltb_iff_leb_neq. split; [now apply Hall|].
      intros Heq. subst k. contradiction. }
    rewrite Hlt. cbn. f_equal. now apply IH.
Qed.

End VehicleProofs.

(** C4, as the code has it: [groupby(...).ngroup()] numbers the groups in
    sorted key order, so a vehicle's key is 1 + the number of distinct
    (household_id, vehicle_number) pairs of the input that are
    lexicographically smaller than its own pair. *)
Theorem vehicle_id_rank (ks : list Vehicles.key) (i : nat) (k : Vehicles.key) :
  nth_error ks i = Some k ->
  nth_error (Vehicles.vehicle_id ks) i = Some (Vehicles.rank_key ks k).
Proof.
  intros Hi. unfold Vehicles.vehicle_id, Vehicles.ngroup.
  rewrite !nth_error_map, Hi. cbn. f_equal. unfold Vehicles.rank_key. f_equal.
  unfold Vehicles.groups.
  rewrite <- (VehicleProofs.filter_perm_length _ _ _
               (VehicleProofs.sort_keys_perm (Vehicles.unique_keys ks))).
  apply VehicleProofs.index_rank.
  - apply VehicleProofs.sort_keys_sorted.
  - apply (Permutation_NoDup (Permutation_sym (VehicleProofs.sort_keys_perm _))).
    apply VehicleProofs.unique_keys_nodup.
  - apply (Permutation_in _ (Permutation_sym (VehicleProofs.sort_keys_perm _))).
    apply VehicleProofs.unique_keys_in. now apply nth_error_In in Hi.
Qed.

Lemma vehicle_id_rank_witness :
  let ks : list Vehicles.key := [(1%Z, 1%Z); (1%Z, 2%Z); (2%Z, 1%Z)] in
  let k : Vehicles.key := (1%Z, 2%Z) in
  (nth_error ks 1%nat = Some k) /\
  (nth_error (Vehicles.vehicle_id ks) 1%nat = Some (Vehicles.rank_key ks k)) /\
  (Vehicles.rank_key ks k = 2%nat).
Proof.
  intros ks k. split; [reflexivity|]. split; [|reflexivity].
  apply vehicle_id_rank. reflexivity.
Defined.

(** The worked example of C4: pairs (1,1), (1,2), (2,1) get 1, 2, 3. *)
Example vehicle_id_spec_example :
  Vehicles.vehicle_id [(1%Z, 1%Z); (1%Z, 2%Z); (2%Z, 1%Z)] = [1%nat; 2%nat; 3%nat].
Proof. reflexivity. Qed.

(** C4 as stated fails: pairs first seen in the order (2,1), (1,1) get keys
    2, 1, not 1, 2. *)
Lemma vehicle_id_first_seen_counterexample :
  (Vehicles.vehicle_id [(2%Z, 1%Z); (1%Z, 1%Z)] = [2%nat; 1%nat]) /\
  (nth_error (Vehicles.vehicle_id [(2%Z, 1%Z); (1%Z, 1%Z)]) 0%nat <> Some 1%nat).
Proof. split; [reflexivity | discriminate]. Qed.

Module BorderProofs.
Import Border.

Lemma map_snd_number_from (n : nat) (rs : list rec_row) :
  map snd (number_from n rs) = rs.
Proof.
  revert n. induction rs as [|r t IH]; intros n; cbn; [reflexivity|].
  now rewrite IH.
Qed.

Lemma has_no_na_recode (l : long_row) :
  has_no_na (recode l) = true <-> slot_mapped (l_slot l).
Proof.
  unfold has_no_na, recode, slot_mapped. cbn.
  destruct (border_mode_map (s_mode (l_slot l))),
           (border_poe_map (s_poe (l_slot l))),
           (border_purpose_map (s_purpose (l_slot l))),
           (border_duration_map (s_duration (l_slot l))),
           (border_party_map (s_party (l_slot l))); cbn;
    intuition congruence.
Qed.

Lemma slot_empty_eq (s : slot) : slot_empty s = true -> s = empty_slot.
Proof.
  destruct s as [[] [] [] [] []]; cbn; intros H; first [reflexivity | discriminate H].
Qed.

End BorderProofs.

(** C5, as the code has it: [df.dropna()] drops a long row as soon as ANY
    of its five recoded fields (mode, port of entry, purpose, duration,
    party size) is missing, i.e. empty or a code outside its dictionary; a
    row stays exactly when all five are codes of their dictionaries. A
    household whose slots 1, 3, 4 are empty and whose slot 2 holds valid
    codes yields exactly one row, occurrence 2, numbered 0. *)
Theorem border_trips_dropna_any :
  (forall (hs : list Border.household) (l : Border.long_row),
      In l (Border.wide_to_long hs) ->
      (In (Border.recode l) (map snd (Border.border_trips hs)) <->
       Border.slot_mapped (Border.l_slot l))) /\
  (forall h : Border.household,
      Border.slot_empty (Border.slot1 h) = true ->
      Border.slot_empty (Border.slot3 h) = true ->
      Border.slot_empty (Border.slot4 h) = true ->
      Border.slot_mapped (Border.slot2 h) ->
      Border.border_trips [h] =
      [(0%nat, Border.recode (Border.mkLong (Border.hhid h) 2 (Border.slot2 h)))]).
Proof.
  split.
  - intros hs l Hl. unfold Border.border_trips, Border.dropna.
    rewrite BorderProofs.map_snd_number_from, filter_In,
            BorderProofs.has_no_na_recode.
    split; [now intros [_ H]|]. intros H. split; [|exact H].
    now apply in_map.
  - intros h H1 H3 H4 H2.
    destruct h as [id s1 s2 s3 s4]. cbn in H1, H2, H3, H4 |- *.
    apply BorderProofs.slot_empty_eq in H1, H3, H4. subst s1 s3 s4.
    unfold Border.border_trips, Border.dropna, Border.wide_to_long. cbn.
    assert (E : Border.has_no_na (Border.recode (Border.mkLong id 2 s2)) = true)
      by (apply BorderProofs.has_no_na_recode; exact H2).
    cbn in E. rewrite E. reflexivity.
Qed.

Lemma border_trips_dropna_any_witness :
  let h := Border.mkHousehold 7 Border.empty_slot
             (Border.mkSlot (Some 1%Z) (Some 2%Z) (Some 3%Z) (Some 1%Z) (Some 2%Z))
             Border.empty_slot Border.empty_slot in
  (Border.slot_empty (Border.slot1 h) = true) /\
  (Border.slot_empty (Border.slot3 h) = true) /\
  (Border.slot_empty (Border.slot4 h) = true) /\
  Border.slot_mapped (Border.slot2 h) /\
  (Border.border_trips [h] =
   [(0%nat, Border.recode (Border.mkLong (Border.hhid h) 2 (Border.slot2 h)))]) /\
  (In (Border.recode (Border.mkLong 7 2 (Border.slot2 h)))
      (map snd (Border.border_trips [h]))).
Proof.
  intros h.
  assert (Hm : Border.slot_mapped (Border.slot2 h))
    by (cbn; repeat split; discriminate).
  split; [reflexivity|]. split; [reflexivity|]. split; [reflexivity|].
  split; [exact Hm|]. split.
  - apply (proj2 border_trips_dropna_any); [reflexivity | reflexivity | reflexivity | exact Hm].
  - apply (proj1 border_trips_dropna_any); [cbn; tauto | exact Hm].
Defined.

(** C5 as stated fails: a row whose group is only partly empty is dropped
    too. A household whose slot 1 has only the mode filled in, and whose
    other slots are empty, yields no row at all, although slot 1 is not
    empty. *)
Lemma border_trips_partial_slot_counterexample :
  let h := Border.mkHousehold 7
             (Border.mkSlot (Some 1%Z) None None None None)
             Border.empty_slot Border.empty_slot Border.empty_slot in
  (Border.slot_empty (Border.slot1 h) = false) /\ (Border.border_trips [h] = []).
Proof. split; reflexivity. Qed.

Module GeometryProofs.
Import Geometry.
Local Open Scope list_scope.

Section Dedup.
Context {P : Type} (eq : forall x y : P, {x = y} + {x <> y}).

Definition notin (acc : list P) (y : P) : bool :=
  if in_dec eq y acc then false else true.

Lemma dedup_step_in (acc : list P) (x : P) : In x acc -> dedup_step eq acc x = acc.
Proof. intros H. unfold dedup_step. destruct (in_dec eq x acc); [reflexivity | contradiction]. Qed.

Lemma dedup_step_notin (acc : list P) (x : P) :
  ~ In x acc -> dedup_step eq acc x = acc ++ [x].
Proof. intros H. unfold dedup_step. destruct (in_dec eq x acc); [contradiction | reflexivity]. Qed.

Lemma notin_in (acc : list P) (x : P) : In x acc -> notin acc x = false.
Proof. intros H. unfold notin. destruct (in_dec eq x acc); [reflexivity | contradiction]. Qed.

Lemma notin_notin (acc : list P) (x : P) : ~ In x acc -> notin acc x = true.
Proof. intros H. unfold notin. destruct (in_dec eq x acc); [contradiction | reflexivity]. Qed.

Lemma dedup_fold_app (l : list P) : forall acc1 acc2,
  fold_left (dedup_step eq) l (acc1 ++ acc2) =
  acc1 ++ fold_left (dedup_step eq) (filter (notin acc1) l) acc2.
Proof.
  induction l as [|a l IH]; intros acc1 acc2; [reflexivity|].
  cbn [fold_left filter].
  destruct (in_dec eq a acc1) as [H1|H1].
  - rewrite (notin_in _ _ H1), dedup_step_in by (apply in_or_app; now left).
    apply IH.
  - rewrite (notin_notin _ _ H1). cbn [fold_left].
    destruct (in_dec eq a acc2) as [H2|H2].
    + rewrite (dedup_step_in acc2 a H2), dedup_step_in by (apply in_or_app; now right).
      apply IH.
    + rewrite (dedup_step_notin acc2 a H2), dedup_step_notin
        by (intros H; apply in_app_or in H; tauto).
      rewrite <- app_assoc. apply IH.
Qed.

Lemma filter_notin_single (x : P) (l : list P) :
  filter (notin [x]) l = remove eq x l.
Proof.
  induction l as [|a l IH]; [reflexivity|].
  cbn [filter remove].
  destruct (eq x a) as [E|E].
  - subst a. rewrite notin_in by (now left). exact IH.
  - rewrite notin_notin by (intros [H|H]; [congruence | destruct H]).
    now rewrite IH.
Qed.

(** Keeping the first occurrence: the head stays, and its later copies go. *)
Lemma dedup_cons (x : P) (l : list P) :
  dedup eq (x :: l) = x :: dedup eq (remove eq x l).
Proof.
  unfold dedup. cbn [fold_left].
  rewrite (dedup_step_notin [] x) by (intros []). cbn [app].
  change [x] with ([x] ++ []).
  rewrite dedup_fold_app, filter_notin_single. reflexivity.
Qed.

Lemma dedup_fold_in (l : list P) : forall acc y,
  In y (fold_left (dedup_step eq) l acc) <-> In y acc \/ In y l.
Proof.
  induction l as [|a l IH]; intros acc y; cbn [fold_left In].
  - tauto.
  - rewrite IH.
    destruct (in_dec eq a acc) as [H|H].
    + rewrite (dedup_step_in _ _ H). split; [tauto|]. intros [Hy|[Hy|Hy]]; [tauto| |tauto]. subst. tauto.
    + rewrite (dedup_step_notin _ _ H), in_app_iff. cbn [In]. tauto.
Qed.

Lemma dedup_fold_nodup (l : list P) : forall acc,
  NoDup acc -> NoDup (fold_left (dedup_step eq) l acc).
Proof.
  induction l as [|a l IH]; intros acc Hacc; cbn [fold_left]; [exact Hacc|].
  apply IH. destruct (in_dec eq a acc) as [H|H].
  { rewrite (dedup_step_in _ _ H). exact Hacc. }
  rewrite (dedup_step_notin _ _ H).
  apply (Permutation_NoDup (Permutation_cons_append acc a)).
  now constructor.
Qed.

Lemma dedup_in (l : list P) (y : P) : In y (dedup eq l) <-> In y l.
Proof. unfold dedup. rewrite dedup_fold_in. cbn [In]. tauto. Qed.

Lemma dedup_nodup (l : list P) : NoDup (dedup eq l).
Proof. apply dedup_fold_nodup. constructor. Qed.

Lemma dedup_twice (a : P) (l : list P) : dedup eq (a :: a :: l) = dedup eq (a :: l).
Proof.
  rewrite !dedup_cons. cbn [remove].
  destruct (eq a a) as [_|E]; [reflexivity | now contradiction E].
Qed.

Lemma length_pos_ltb (l : list P) : l <> [] -> (0 <? length l)%nat = true.
Proof. destruct l; [congruence|reflexivity]. Qed.

Lemma dedup_nonempty (l : list P) : dedup eq l <> [] -> l <> [].
Proof. intros H E. subst l. apply H. reflexivity. Qed.

Lemma line_wkt_one_empty (g : geo_lib P) : line_wkt_one eq g [] = Value None.
Proof. reflexivity. Qed.

Lemma line_wkt_one_line (g : geo_lib P) (line : list P) :
  (2 <= length (dedup eq line))%nat ->
  line_wkt_one eq g line =
  (let v := GLine (map (transform g) (dedup eq line)) in
   if is_valid g v then Value (Some (to_wkt g v)) else Value None).
Proof.
  intros H2. unfold line_wkt_one.
  rewrite length_pos_ltb
    by (apply dedup_nonempty; intros E; rewrite E in H2; cbn in H2; lia).
  cbv zeta. apply Nat.leb_le in H2. rewrite H2. reflexivity.
Qed.

Lemma line_wkt_one_point (g : geo_lib P) (line : list P) (p : P) :
  dedup eq line = [p] ->
  line_wkt_one eq g line =
  (let v := GPoint (transform g p) in
   if is_valid g v then Value (Some (to_wkt g v)) else Value None).
Proof.
  intros Hp. unfold line_wkt_one.
  rewrite length_pos_ltb by (apply dedup_nonempty; rewrite Hp; discriminate).
  cbv zeta. rewrite Hp. reflexivity.
Qed.

Lemma line_wkt_one_total (g : geo_lib P) (line : list P) :
  line_wkt_one eq g line <> AttributeError.
Proof.
  destruct (dedup eq line) as [|p [|q t]] eqn:E.
  - destruct line as [|a l]; [discriminate|].
    assert (Ha : In a (dedup eq (a :: l))) by (apply dedup_in; now left).
    rewrite E in Ha. destruct Ha.
  - rewrite (line_wkt_one_point g line p E). cbv zeta.
    destruct (is_valid g _); discriminate.
  - rewrite (line_wkt_one_line g line) by (rewrite E; cbn; lia). cbv zeta.
    destruct (is_valid g _); discriminate.
Qed.

Definition outcome_value (o : outcome) : option string :=
  match o with Value w => w | AttributeError => None end.

Lemma line_wkt_all (g : geo_lib P) (lines : list (list P)) :
  line_wkt eq g lines = Some (map (fun l => outcome_value (line_wkt_one eq g l)) lines).
Proof.
  induction lines as [|l ls IH]; [reflexivity|]. cbn [line_wkt map].
  rewrite IH. destruct (line_wkt_one eq g l) eqn:E; [reflexivity|].
  exfalso. exact (line_wkt_one_total g l E).
Qed.

End Dedup.

End GeometryProofs.

(** C2: [line_wkt] de-duplicates each line over the whole sequence keeping
    the first occurrence of each point (the result has no duplicates, the
    same points, and starts with the first point followed by the
    de-duplicated rest with that point removed); with at least 2 distinct
    points it gives the text of the transformed line through them in order,
    with exactly 1 the text of the transformed point, for an empty line
    null, and null when the transformed geometry is not valid; no line makes
    it raise. A repeated leading point changes nothing, and a single-point
    line gives a point. *)
Theorem line_wkt_spec {P : Type} (eq : forall x y : P, {x = y} + {x <> y})
    (g : Geometry.geo_lib P) :
  (forall line, NoDup (Geometry.dedup eq line) /\
                (forall y, In y (Geometry.dedup eq line) <-> In y line)) /\
  (forall x l, Geometry.dedup eq (x :: l) = x :: Geometry.dedup eq (remove eq x l)) /\
  (forall line, (2 <= length (Geometry.dedup eq line))%nat ->
     Geometry.line_wkt_one eq g line =
     (let v := Geometry.GLine (map (Geometry.transform g) (Geometry.dedup eq line)) in
      if Geometry.is_valid g v then Geometry.Value (Some (Geometry.to_wkt g v))
      else Geometry.Value None)) /\
  (forall line p, Geometry.dedup eq line = [p] ->
     Geometry.line_wkt_one eq g line =
     (let v := Geometry.GPoint (Geometry.transform g p) in
      if Geometry.is_valid g v then Geometry.Value (Some (Geometry.to_wkt g v))
      else Geometry.Value None)) /\
  (Geometry.line_wkt_one eq g [] = Geometry.Value None) /\
  (forall line, Geometry.line_wkt_one eq g line <> Geometry.AttributeError) /\
  (forall lines, Geometry.line_wkt eq g lines =
     Some (map (fun l => GeometryProofs.outcome_value (Geometry.line_wkt_one eq g l)) lines)) /\
  (forall a l, Geometry.line_wkt_one eq g (a :: a :: l) = Geometry.line_wkt_one eq g (a :: l)) /\
  (forall p, Geometry.line_wkt_one eq g [p] =
     (let v := Geometry.GPoint (Geometry.transform g p) in
      if Geometry.is_valid g v then Geometry.Value (Some (Geometry.to_wkt g v))
      else Geometry.Value None)).
Proof.
  split; [intros line; split; [apply GeometryProofs.dedup_nodup | apply GeometryProofs.dedup_in]|].
  split; [apply GeometryProofs.dedup_cons|].
  split; [apply GeometryProofs.line_wkt_one_line|].
  split; [apply GeometryProofs.line_wkt_one_point|].
  split; [apply GeometryProofs.line_wkt_one_empty|].
  split; [apply GeometryProofs.line_wkt_one_total|].
  split; [apply GeometryProofs.line_wkt_all|].
  split.
  - intros a l. unfold Geometry.line_wkt_one.
    rewrite !GeometryProofs.length_pos_ltb by discriminate.
    rewrite GeometryProofs.dedup_twice. reflexivity.
  - intros p. apply GeometryProofs.line_wkt_one_point. reflexivity.
Qed.

Lemma line_wkt_spec_witness :
  let g := Geometry.mkGeoLib (Z * Z) (fun p => p) (fun _ => true)
             (fun v => match v with Geometry.GPoint _ => "POINT" | Geometry.GLine _ => "LINESTRING" end) in
  (Geometry.line_wkt Geometry.pair_eq_dec g [[(0, 0); (0, 0); (1, 1)]; [(0, 0); (1, 1)]; [(2, 3)]; []]%Z =
   Some [Some "LINESTRING"; Some "LINESTRING"; Some "POINT"; None]) /\
  (Geometry.line_wkt_one Geometry.pair_eq_dec g [(0, 0); (0, 0); (1, 1)]%Z =
   Geometry.line_wkt_one Geometry.pair_eq_dec g [(0, 0); (1, 1)]%Z).
Proof.
  intros g. split.
  - rewrite (proj1 (proj2 (proj2 (proj2 (proj2 (proj2 (proj2 (line_wkt_spec Geometry.pair_eq_dec g)))))))).
    vm_compute. reflexivity.
  - apply (proj1 (proj2 (proj2 (proj2 (proj2 (proj2 (proj2 (proj2 (line_wkt_spec Geometry.pair_eq_dec g))))))))).
Defined.

(** * Further properties of the pipeline *)

(** ** Vehicles: the surrogate key identifies the (hhid, vehnum) pair *)

Module VehicleKeys.
Import Vehicles.

Lemma nth_error_index_of (s : list key) (k : key) :
  In k s -> nth_error s (index_of k s) = Some k.
Proof.
  induction s as [|h t IH]; intros Hin; [destruct Hin|].
  cbn. destruct (key_eqb k h) eqn:E.
  - apply VehicleProofs.key_eqb_eq in E. now subst.
  - destruct Hin as [->|Hin]; [|now apply IH].
    assert (key_eqb k k = true) by now apply VehicleProofs.key_eqb_eq. congruence.
Qed.

Lemma index_of_lt (s : list key) (k : key) : In k s -> (index_of k s < length s)%nat.
Proof.
  intros Hin. apply nth_error_Some. rewrite nth_error_index_of by exact Hin.
  discriminate.
Qed.

Lemma index_of_nth (s : list key) (n : nat) (k : key) :
  NoDup s -> nth_error s n = Some k -> index_of k s = n.
Proof.
  revert n. induction s as [|h t IH]; intros n Hnd Hn; [destruct n; discriminate|].
  apply NoDup_cons_iff in Hnd as [Hh Ht]. cbn.
  destruct n as [|n]; cbn in Hn.
  - injection Hn as ->. now rewrite (proj2 (VehicleProofs.key_eqb_eq k k) eq_refl).
  - destruct (key_eqb k h) eqn:E.
    + apply VehicleProofs.key_eqb_eq in E. subst h.
      exfalso. apply Hh. now apply nth_error_In in Hn.
    + f_equal. now apply IH.
Qed.

Lemma groups_in (ks : list key) (k : key) : In k (groups ks) <-> In k ks.
Proof.
  unfold groups. transitivity (In k (unique_keys ks)); [|apply VehicleProofs.unique_keys_in].
  split; apply Permutation_in;
    [|apply Permutation_sym]; apply VehicleProofs.sort_keys_perm.
Qed.

Lemma groups_nodup (ks : list key) : NoDup (groups ks).
Proof.
  apply (Permutation_NoDup (Permutation_sym (VehicleProofs.sort_keys_perm _))).
  apply VehicleProofs.unique_keys_nodup.
Qed.

Lemma groups_length (ks : list key) : length (groups ks) = length (unique_keys ks).
Proof. apply Permutation_length, VehicleProofs.sort_keys_perm. Qed.

Lemma vehicle_id_nth (ks : list key) (i : nat) (k : key) :
  nth_error ks i = Some k ->
  nth_error (vehicle_id ks) i = Some (S (index_of k (groups ks))).
Proof.
  intros Hi. unfold vehicle_id, ngroup. now rewrite !nth_error_map, Hi.
Qed.

End VehicleKeys.

(** Two vehicle rows get the same [vehicle_id] exactly when they have the
    same (household_id, vehicle_number) pair. *)
Theorem vehicle_id_same_iff_same_pair (ks : list Vehicles.key) (i j : nat)
    (ki kj : Vehicles.key) :
  nth_error ks i = Some ki -> nth_error ks j = Some kj ->
  (nth_error (Vehicles.vehicle_id ks) i = nth_error (Vehicles.vehicle_id ks) j <-> ki = kj).
Proof.
  intros Hi Hj.
  rewrite (VehicleKeys.vehicle_id_nth ks i ki Hi), (VehicleKeys.vehicle_id_nth ks j kj Hj).
  split; [|intros ->; reflexivity].
  intros E. injection E as E.
  assert (Hki : In ki (Vehicles.groups ks))
    by (apply VehicleKeys.groups_in; now apply nth_error_In in Hi).
  assert (Hkj : In kj (Vehicles.groups ks))
    by (apply VehicleKeys.groups_in; now apply nth_error_In in Hj).
  apply VehicleKeys.nth_error_index_of in Hki, Hkj.
  rewrite E in Hki. congruence.
Qed.

Lemma vehicle_id_same_iff_same_pair_witness :
  let ks : list Vehicles.key := [(5%Z, 1%Z); (3%Z, 2%Z); (5%Z, 1%Z)] in
  (nth_error ks 0%nat = Some (5%Z, 1%Z)) /\ (nth_error ks 2%nat = Some (5%Z, 1%Z)) /\
  (nth_error (Vehicles.vehicle_id ks) 0%nat = nth_error (Vehicles.vehicle_id ks) 2%nat).
Proof.
  intros ks. split; [reflexivity|]. split; [reflexivity|].
  apply (vehicle_id_same_iff_same_pair ks 0 2 (5%Z, 1%Z) (5%Z, 1%Z)); reflexivity.
Defined.

(** The [vehicle_id] values are exactly 1, 2, ..., k, where k is the number
    of distinct (household_id, vehicle_number) pairs: none is out of that
    range and none of it is skipped. *)
Theorem vehicle_id_values_one_to_k (ks : list Vehicles.key) (v : nat) :
  In v (Vehicles.vehicle_id ks) <->
  (1 <= v <= length (Vehicles.unique_keys ks))%nat.
Proof.
  rewrite <- VehicleKeys.groups_length. split.
  - intros Hv. apply In_nth_error in Hv as [i Hi].
    destruct (nth_error ks i) as [k|] eqn:Hk.
    + rewrite (VehicleKeys.vehicle_id_nth ks i k Hk) in Hi. injection Hi as <-.
      pose proof (VehicleKeys.index_of_lt (Vehicles.groups ks) k
                    (proj2 (VehicleKeys.groups_in ks k) (nth_error_In _ _ Hk))).
      lia.
    + exfalso. apply nth_error_None in Hk.
      assert (length (Vehicles.vehicle_id ks) = length ks)
        by (unfold Vehicles.vehicle_id, Vehicles.ngroup; now rewrite !length_map).
      assert (nth_error (Vehicles.vehicle_id ks) i <> None) by congruence.
      apply nth_error_Some in H0. lia.
  - intros Hv. destruct v as [|n]; [lia|].
    destruct (nth_error (Vehicles.groups ks) n) as [k|] eqn:Hk;
      [|apply nth_error_None in Hk; lia].
    assert (Hin : In k ks)
      by (apply VehicleKeys.groups_in; now apply nth_error_In in Hk).
    apply In_nth_error in Hin as [i Hi].
    apply (nth_error_In _ i). rewrite (VehicleKeys.vehicle_id_nth ks i k Hi).
    rewrite (VehicleKeys.index_of_nth _ n k (VehicleKeys.groups_nodup ks) Hk).
    reflexivity.
Qed.

(** ** Border trips: the (hhid, trip_id) index *)

Module BorderIndex.
Import Border.

(** Keeping some rows keeps the index duplicate-free. *)
Lemma index_nodup_filter {A B : Type} (key : A -> B) (keep : A -> bool) (rows : list A) :
  NoDup (map key rows) -> NoDup (map key (filter keep rows)).
Proof.
  induction rows as [|a l IH]; intros H; cbn; [constructor|].
  apply NoDup_cons_iff in H as [Ha Hl].
  destruct (keep a); cbn; [|now apply IH].
  constructor; [|now apply IH].
  intros Hin. apply Ha. apply in_map_iff in Hin as [x [Ex Hx]].
  apply filter_In in Hx as [Hx _]. rewrite <- Ex. now apply in_map.
Qed.

Lemma nodup_map_pair {A : Type} (f : A -> Z) (j : Z) (l : list A) :
  NoDup (map f l) -> NoDup (map (fun h => (f h, j)) l).
Proof.
  induction l as [|a l IH]; intros H; cbn; [constructor|].
  apply NoDup_cons_iff in H as [Ha Hl]. constructor; [|now apply IH].
  intros Hin. apply in_map_iff in Hin as [x [Ex Hx]]. injection Ex as Ex.
  apply Ha. rewrite <- Ex. now apply in_map.
Qed.

Lemma in_map_pair {A : Type} (f : A -> Z) (j : Z) (l : list A) (a : Z * Z) :
  In a (map (fun h => (f h, j)) l) -> snd a = j.
Proof. intros Hin. apply in_map_iff in Hin as [x [<- _]]. reflexivity. Qed.

Definition index (x : nat * rec_row) : Z * Z := (r_hhid (snd x), r_trip_id (snd x)).

Lemma index_border_trips (hs : list household) :
  map index (border_trips hs) =
  map (fun r => (r_hhid r, r_trip_id r)) (filter has_no_na (map recode (wide_to_long hs))).
Proof.
  unfold border_trips, dropna.
  rewrite <- (BorderProofs.map_snd_number_from 0 (filter _ _)) at 2.
  rewrite map_map. reflexivity.
Qed.

Lemma index_wide_to_long (hs : list household) :
  map (fun r => (r_hhid r, r_trip_id r)) (map recode (wide_to_long hs)) =
  flat_map (fun j => map (fun h => (hhid h, j)) hs) [1; 2; 3; 4]%Z.
Proof.
  unfold wide_to_long. cbn [flat_map]. rewrite !map_app, !map_map. reflexivity.
Qed.

Lemma nodup_flat_pairs {A : Type} (f : A -> Z) (hs : list A) (js : list Z) :
  NoDup js -> NoDup (map f hs) ->
  NoDup (flat_map (fun j => map (fun h => (f h, j)) hs) js).
Proof.
  intros Hjs Hhs. induction js as [|j js IH]; cbn; [constructor|].
  apply NoDup_cons_iff in Hjs as [Hj Hjs].
  apply NoDup_app; [now apply nodup_map_pair | now apply IH|].
  intros a Ha Hb. apply in_map_pair in Ha.
  apply in_flat_map in Hb as [j' [Hj' Hb]]. apply in_map_pair in Hb.
  apply Hj. congruence.
Qed.

End BorderIndex.

(** When the household ids of the input are distinct, the (hhid, trip_id)
    index of the border trips has no duplicate; every output row carries the
    hhid of an input household and a trip_id among 1, 2, 3, 4. *)
Theorem border_trips_index_unique (hs : list Border.household) :
  NoDup (map Border.hhid hs) ->
  NoDup (map BorderIndex.index (Border.border_trips hs)) /\
  (forall x, In x (Border.border_trips hs) ->
     In (Border.r_hhid (snd x)) (map Border.hhid hs) /\
     In (Border.r_trip_id (snd x)) [1; 2; 3; 4]%Z).
Proof.
  intros Hnd. split.
  - rewrite BorderIndex.index_border_trips.
    apply (BorderIndex.index_nodup_filter (fun r => (Border.r_hhid r, Border.r_trip_id r))).
    rewrite BorderIndex.index_wide_to_long.
    apply BorderIndex.nodup_flat_pairs; [|exact Hnd].
    repeat constructor; cbn; intuition discriminate.
  - intros x Hx. unfold Border.border_trips, Border.dropna in Hx.
    apply (in_map snd) in Hx. rewrite BorderProofs.map_snd_number_from in Hx.
    apply filter_In in Hx as [Hx _]. apply in_map_iff in Hx as [l [<- Hl]].
    unfold Border.wide_to_long in Hl. apply in_flat_map in Hl as [j [Hj Hl]].
    apply in_map_iff in Hl as [h [<- Hh]]. cbn.
    split; [now apply in_map | exact Hj].
Qed.

Lemma border_trips_index_unique_witness :
  let s := Border.mkSlot (Some 1%Z) (Some 2%Z) (Some 3%Z) (Some 1%Z) (Some 2%Z) in
  let hs := [Border.mkHousehold 7 s s Border.empty_slot Border.empty_slot;
             Border.mkHousehold 8 Border.empty_slot s s s] in
  NoDup (map Border.hhid hs) /\ NoDup (map BorderIndex.index (Border.border_trips hs)).
Proof.
  intros s hs.
  assert (H : NoDup (map Border.hhid hs)).
  { cbn. constructor; [intros [H|[]]; discriminate | constructor; [intros []|constructor]]. }
  split; [exact H|]. exact (proj1 (border_trips_index_unique hs H)).
Defined.

(** ** Recode steps other than a [MapCol] never blank a value *)

Lemma apply_step_present (s : step) (r : row) (c : string) :
  never_blanks c s = true -> r c <> None -> apply_step s r c <> None.
Proof.
  intros Hb H. destruct s as [g cols v | col v | col f]; cbn [apply_step].
  - destruct (g r); [destruct (mem c cols); [discriminate | exact H] | exact H].
  - destruct (String.eqb c col); [destruct (r c); discriminate | exact H].
  - cbn [never_blanks] in Hb. apply negb_true_iff in Hb. rewrite Hb. exact H.
Qed.

Lemma run_steps_present (ss : list step) (r : row) (c : string) :
  forallb (never_blanks c) ss = true -> r c <> None -> run_steps ss r c <> None.
Proof.
  revert r; induction ss as [|s ss IH]; intros r Hb H; [exact H|].
  cbn [forallb] in Hb. apply andb_true_iff in Hb as [Hb1 Hb2].
  rewrite run_steps_cons. apply IH; [exact Hb2|]. now apply apply_step_present.
Qed.

Lemma eq_str_false (v : option cell) (s : string) :
  v <> Some (CStr s) -> eq_str v s = false.
Proof.
  destruct v as [[x| |]|]; cbn; try reflexivity.
  intros H. apply String.eqb_neq. congruence.
Qed.

Lemma eq_str_true (v : option cell) (s : string) :
  eq_str v s = true -> v = Some (CStr s).
Proof.
  destruct v as [[x| |]|]; cbn; try discriminate.
  intros H. apply String.eqb_eq in H. now subst.
Qed.

Lemma day_split (k : nat) (r : row) (c : string) :
  Day.day r c = run_steps (skipn k Day.day_steps) (run_steps (firstn k Day.day_steps) r) c.
Proof.
  unfold Day.day. rewrite <- run_steps_app, firstn_skipn. reflexivity.
Qed.

Lemma run_steps_nil (r : row) : run_steps [] r = r.
Proof. reflexivity. Qed.

Lemma mem_single (c : string) : mem c [c] = true.
Proof. unfold mem. cbn. now rewrite String.eqb_refl. Qed.

(** The day row after the first four rules (trips indicator and blank
    reasons), named for the proofs below. *)
Lemma day_notravel_other_steps (r : row) :
  Day.day r "notravel_other" =
  apply_step (nth 5 Day.day_steps (FillNa "" (CInt 0)))
    (apply_step (nth 4 Day.day_steps (FillNa "" (CInt 0)))
       (run_steps (firstn 4 Day.day_steps) r)) "notravel_other".
Proof.
  rewrite (day_split 6 r "notravel_other"), run_steps_frame by reflexivity.
  replace (firstn 6 Day.day_steps) with
    (firstn 4 Day.day_steps ++ [nth 4 Day.day_steps (FillNa "" (CInt 0));
                                nth 5 Day.day_steps (FillNa "" (CInt 0))])%list
    by reflexivity.
  rewrite run_steps_app. reflexivity.
Qed.

(** In every day row, no_trips_reason_specify_other is never missing, and it
    is "Not Applicable" whenever neither no_trips_reason_1 nor
    no_trips_reason_2 is "Other reason". *)
Theorem day_no_trips_reason_other_filled (r : row) :
  Day.day r "notravel_other" <> None /\
  (Day.day r "notravel" <> Some (CStr "Other reason") ->
   Day.day r "notravel_secondary" <> Some (CStr "Other reason") ->
   Day.day r "notravel_other" = Some (CStr NA)).
Proof.
  rewrite (day_split 6 r "notravel"), (day_split 6 r "notravel_secondary"),
    !(run_steps_frame (skipn 6 Day.day_steps)) by reflexivity.
  replace (firstn 6 Day.day_steps) with
    (firstn 4 Day.day_steps ++ [nth 4 Day.day_steps (FillNa "" (CInt 0));
                                nth 5 Day.day_steps (FillNa "" (CInt 0))])%list
    by reflexivity.
  rewrite day_notravel_other_steps, !run_steps_app.
  set (r4 := run_steps (firstn 4 Day.day_steps) r). clearbody r4.
  cbn [run_steps fold_left nth Day.day_steps].
  rewrite !(apply_step_frame _ _ "notravel"), !(apply_step_frame _ _ "notravel_secondary")
    by reflexivity.
  rewrite !apply_locset, !mem_single. cbv beta.
  rewrite ?(apply_step_frame _ r4 "notravel"), ?(apply_step_frame _ r4 "notravel_secondary")
    by reflexivity.
  unfold neq_str.
  destruct (eq_str (r4 "notravel") "Other reason") eqn:E1;
    destruct (eq_str (r4 "notravel_secondary") "Other reason") eqn:E2;
    rewrite ?E1, ?E2; cbn; rewrite ?E1, ?E2; cbn;
    try (split; [discriminate | reflexivity]).
  - apply eq_str_true in E1.
    destruct (r4 "notravel_other"); cbn; split; try discriminate;
      intros H; contradiction.
  - apply eq_str_true in E1.
    destruct (r4 "notravel_other"); cbn; split; try discriminate;
      intros H; contradiction.
  - apply eq_str_true in E2.
    destruct (r4 "notravel_other"); cbn; split; try discriminate;
      intros _ H; contradiction.
Qed.

Lemma day_notravel_other_filled_witness :
  let r := fun c => if String.eqb c "notravel" then Some (CStr "Other reason")
                    else None in
  Day.day r "notravel_other" <> None /\ Day.day r "notravel_other" = Some (CStr "Missing").
Proof.
  intros r. split; [exact (proj1 (day_no_trips_reason_other_filled r)) | vm_compute; reflexivity].
Defined.

(** In every day row whose number_trips is [> 0] or [== 0] (an integer or
    a float), no_trips_reason_1 is never missing: a blank reason becomes
    "Missing" for a day without trips and "Not Applicable" for a day with
    trips. *)
Theorem day_no_trips_reason_filled (r : row) :
  (num_gt0 (Day.day r "num_trips") || num_eq0 (Day.day r "num_trips"))%bool = true ->
  Day.day r "notravel" <> None.
Proof.
  intros H. rewrite !(day_frame r "num_trips") in H by reflexivity.
  rewrite (day_split 4 r "notravel"), run_steps_frame by reflexivity.
  destruct (r "notravel") eqn:Er.
  { apply run_steps_present; [reflexivity|]. rewrite Er. discriminate. }
  unfold Day.day_steps. cbn [firstn]. do 4 rewrite run_steps_cons.
  rewrite run_steps_nil.
  set (r2 := apply_step _ (apply_step _ r)).
  assert (H2n : r2 "num_trips" = r "num_trips")
    by (unfold r2; rewrite !apply_step_frame by reflexivity; reflexivity).
  assert (H2t : r2 "notravel" = None)
    by (unfold r2; rewrite !apply_step_frame by reflexivity; exact Er).
  clearbody r2.
  rewrite !apply_locset. cbv beta. rewrite ?apply_locset. cbv beta.
  rewrite ?H2n, ?H2t. cbn [isnull andb].
  destruct (num_eq0 (r "num_trips")) eqn:E0.
  - cbn. rewrite ?H2n, ?H2t, ?E0. cbn. destruct (num_gt0 (r "num_trips")); cbn; discriminate.
  - rewrite ?E0, orb_false_r in H.
    cbn. rewrite ?H2n, ?H2t, ?E0. cbn. rewrite H. cbn. discriminate.
Qed.

Lemma day_no_trips_reason_filled_witness :
  let r := fun c => if String.eqb c "num_trips" then Some (CNum 0) else None in
  (num_gt0 (Day.day r "num_trips") || num_eq0 (Day.day r "num_trips"))%bool = true /\
  Day.day r "notravel" = Some (CStr "Missing") /\ Day.day r "notravel" <> None.
Proof.
  intros r.
  assert (H : (num_gt0 (Day.day r "num_trips") || num_eq0 (Day.day r "num_trips"))%bool = true)
    by (vm_compute; reflexivity).
  split; [exact H|]. split; [vm_compute; reflexivity|].
  exact (day_no_trips_reason_filled r H).
Defined.

Lemma apply_locset_false (g : row -> bool) (cols : list string) (v : cell) (r : row) :
  g r = false -> apply_step (LocSet g cols v) r = r.
Proof. intros H. cbn [apply_step]. now rewrite H. Qed.

Lemma day_last5 (r : row) :
  Day.day r =
  run_steps (skipn 6 Day.day_steps) (run_steps (firstn 6 Day.day_steps) r).
Proof. unfold Day.day. rewrite <- run_steps_app, firstn_skipn. reflexivity. Qed.

(** In every day row from an rMove survey, the four start and end location
    columns are "Not Applicable", whatever the source supplied. *)
Theorem day_rmove_locations_not_applicable (r : row) (c : string) :
  Day.day r "data_source" = Some (CStr "rMove") ->
  In c ["loc_start"; "loc_start_other"; "loc_end"; "loc_end_other"] ->
  Day.day r c = Some (CStr NA).
Proof.
  intros H Hc. rewrite day_frame in H by reflexivity.
  rewrite day_last5.
  set (r6 := run_steps (firstn 6 Day.day_steps) r).
  assert (H6 : r6 "data_source" = Some (CStr "rMove"))
    by (unfold r6; rewrite run_steps_frame by reflexivity; exact H).
  clearbody r6. cbn [skipn Day.day_steps]. rewrite !run_steps_cons, run_steps_nil.
  set (r7 := apply_step _ r6).
  assert (H7 : r7 "data_source" = Some (CStr "rMove"))
    by (unfold r7; rewrite apply_step_frame by reflexivity; exact H6).
  assert (H7c : r7 c = Some (CStr NA)).
  { unfold r7. apply apply_locset_hit; [cbn; rewrite H6; reflexivity|].
    destruct Hc as [<-|[<-|[<-|[<-|[]]]]]; reflexivity. }
  clearbody r7.
  rewrite !(apply_locset_false _ _ _ r7) by (cbn; rewrite H7; reflexivity).
  exact H7c.
Qed.

Lemma day_rmove_locations_not_applicable_witness :
  let r := fun c => if String.eqb c "data_source" then Some (CStr "rMove")
                    else if String.eqb c "loc_start" then Some (CStr "Home")
                    else None in
  Day.day r "loc_start" = Some (CStr NA).
Proof.
  intros r. apply day_rmove_locations_not_applicable;
    [vm_compute; reflexivity | cbn; tauto].
Defined.

(** In every day row from an online survey, the start and end locations are
    never missing (a blank one becomes "Missing"), and the "other" location
    text is "Not Applicable" unless its location is "Other". *)
Theorem day_online_locations (r : row) :
  Day.day r "data_source" = Some (CStr "Online") ->
  Day.day r "loc_start" <> None /\ Day.day r "loc_end" <> None /\
  (Day.day r "loc_start" <> Some (CStr "Other") ->
   Day.day r "loc_start_other" = Some (CStr NA)) /\
  (Day.day r "loc_end" <> Some (CStr "Other") ->
   Day.day r "loc_end_other" = Some (CStr NA)).
Proof.
  intros H. rewrite day_frame in H by reflexivity.
  rewrite day_last5.
  set (r6 := run_steps (firstn 6 Day.day_steps) r).
  assert (H6 : r6 "data_source" = Some (CStr "Online"))
    by (unfold r6; rewrite run_steps_frame by reflexivity; exact H).
  clearbody r6. cbn [skipn Day.day_steps]. rewrite !run_steps_cons, run_steps_nil.
  rewrite (apply_locset_false _ _ _ r6) by (cbn; rewrite H6; reflexivity).
  set (r8 := apply_step _ r6).
  assert (H8 : r8 "data_source" = Some (CStr "Online"))
    by (unfold r8; rewrite apply_step_frame by reflexivity; exact H6).
  assert (H8s : r8 "loc_start" <> None).
  { unfold r8. rewrite apply_locset. cbn. rewrite H6. cbn.
    destruct (r6 "loc_start"); discriminate. }
  clearbody r8.
  set (r9 := apply_step _ r8).
  assert (H9 : r9 "data_source" = Some (CStr "Online"))
    by (unfold r9; rewrite apply_step_frame by reflexivity; exact H8).
  assert (H9s : r9 "loc_start" = r8 "loc_start")
    by (unfold r9; rewrite apply_step_frame by reflexivity; reflexivity).
  assert (H9e : r9 "loc_end" <> None).
  { unfold r9. rewrite apply_locset. cbn. rewrite H8. cbn.
    destruct (r8 "loc_end"); discriminate. }
  clearbody r9.
  set (r10 := apply_step _ r9).
  assert (H10 : r10 "data_source" = Some (CStr "Online"))
    by (unfold r10; rewrite apply_step_frame by reflexivity; exact H9).
  assert (H10e : r10 "loc_end" = r9 "loc_end")
    by (unfold r10; rewrite apply_step_frame by reflexivity; reflexivity).
  assert (H10s : r10 "loc_start" = r8 "loc_start")
    by (unfold r10; rewrite apply_step_frame by reflexivity; exact H9s).
  assert (H10o : r8 "loc_start" <> Some (CStr "Other") ->
                 r10 "loc_start_other" = Some (CStr NA)).
  { intros Hne. unfold r10. apply apply_locset_hit; [|reflexivity].
    cbn -[eq_str]. rewrite H9, H9s. unfold neq_str.
    rewrite (eq_str_false _ _ Hne). reflexivity. }
  clearbody r10.
  rewrite !(apply_step_frame _ r10 "loc_start"), !(apply_step_frame _ r10 "loc_end"),
    !(apply_step_frame _ r10 "loc_start_other") by reflexivity.
  rewrite H10s, H10e. split; [exact H8s|]. split; [exact H9e|].
  split; [exact H10o|]. intros Hne. apply apply_locset_hit; [|reflexivity].
  cbn -[eq_str]. rewrite H10, H10e. unfold neq_str.
  rewrite (eq_str_false _ _ Hne). reflexivity.
Qed.

Lemma day_online_locations_witness :
  let r := fun c => if String.eqb c "data_source" then Some (CStr "Online")
                    else if String.eqb c "loc_start" then Some (CStr "Home")
                    else if String.eqb c "loc_start_other" then Some (CStr "x")
                    else None in
  Day.day r "data_source" = Some (CStr "Online") /\
  Day.day r "loc_start_other" = Some (CStr NA).
Proof.
  intros r. split; [vm_compute; reflexivity|].
  apply (proj1 (proj2 (proj2 (day_online_locations r ltac:(vm_compute; reflexivity))))).
  vm_compute. discriminate.
Defined.

(** ** Locating the last write of a column in a recode sequence *)

Lemma firstn_S_nth_error {A : Type} (l : list A) (k : nat) (x : A) :
  nth_error l k = Some x -> firstn (S k) l = (firstn k l ++ [x])%list.
Proof.
  revert l; induction k as [|k IH]; intros [|y l] H; cbn in *; try discriminate.
  - injection H as ->. reflexivity.
  - rewrite (IH l H). reflexivity.
Qed.

Lemma run_steps_split (k : nat) (ss : list step) (r : row) :
  run_steps ss r = run_steps (skipn k ss) (run_steps (firstn k ss) r).
Proof. rewrite <- run_steps_app, firstn_skipn. reflexivity. Qed.

(** A column no step after position [k] writes already has its final value
    after the first [k] steps. *)
Lemma run_steps_col_at (ss : list step) (k : nat) (r : row) (a : string) :
  writes a (skipn k ss) = false -> run_steps (firstn k ss) r a = run_steps ss r a.
Proof. intros H. rewrite (run_steps_split k ss r). symmetry. now apply run_steps_frame. Qed.

Lemma mem_In (c : string) (cols : list string) : In c cols -> mem c cols = true.
Proof.
  intros H. unfold mem. apply existsb_exists. exists c. split; [exact H | apply String.eqb_refl].
Qed.

(** The step at position [k] is [df.loc[g, cols] = x]: when its condition
    holds, a column of [cols] ends as [x] if every later step keeps [x]. *)
Lemma run_steps_locset_at (ss : list step) (k : nat) (g : row -> bool)
    (cols : list string) (x : string) (r : row) (c : string) :
  nth_error ss k = Some (LocSet g cols (CStr x)) ->
  g (run_steps (firstn k ss) r) = true -> mem c cols = true ->
  forallb (keeps c x) (skipn (S k) ss) = true ->
  run_steps ss r c = Some (CStr x).
Proof.
  intros Hn Hg Hm Hk.
  rewrite (run_steps_split (S k)), (firstn_S_nth_error _ _ _ Hn), run_steps_app.
  apply run_steps_keeps; [exact Hk|].
  rewrite run_steps_cons, run_steps_nil. now apply apply_locset_hit.
Qed.

(** The step at position [k] is [df[c] = df[c].fillna(v)]: column [c] is
    never missing afterwards. *)
Lemma run_steps_fillna_at (ss : list step) (k : nat) (c : string) (v : cell) (r : row) :
  nth_error ss k = Some (FillNa c v) ->
  forallb (never_blanks c) (skipn (S k) ss) = true -> run_steps ss r c <> None.
Proof.
  intros Hn Hb.
  rewrite (run_steps_split (S k)), (firstn_S_nth_error _ _ _ Hn), run_steps_app.
  apply run_steps_present; [exact Hb|]. rewrite run_steps_cons, run_steps_nil. cbn [apply_step].
  rewrite String.eqb_refl. destruct (run_steps (firstn k ss) r c); discriminate.
Qed.

Lemma persons_keeps_na (c : string) :
  forallb (keeps c NA) (skipn 4 Persons.persons_steps) = true.
Proof. cbn -[mem]. rewrite !orb_true_r. reflexivity. Qed.

(** ** The persons table *)

(** In every person row whose age_category is "Under 5 years old", "5-15
    years" or "16-17 years", student, education and physical_activity are
    "Not Applicable". *)
Theorem persons_minor_school_fields_not_applicable (r : row) (c : string) :
  isin (Persons.persons r "age") ["Under 5 years old"; "5-15 years"; "16-17 years"] = true ->
  In c ["student"; "education"; "physical_activity"] ->
  Persons.persons r c = Some (CStr NA).
Proof.
  unfold Persons.persons. intros Ha Hc.
  eapply (run_steps_locset_at _ 2); [reflexivity | | |].
  - cbv beta. rewrite run_steps_col_at by reflexivity. exact Ha.
  - now apply mem_In.
  - destruct Hc as [<-|[<-|[<-|[]]]]; reflexivity.
Qed.

Lemma persons_minor_school_fields_not_applicable_witness :
  let r := fun c => if String.eqb c "age" then Some (CStr "16-17 years")
                    else if String.eqb c "student" then Some (CStr "Full-time student")
                    else None in
  Persons.persons r "student" = Some (CStr NA).
Proof.
  intros r. apply persons_minor_school_fields_not_applicable;
    [vm_compute; reflexivity | cbn; tauto].
Defined.

(** In every person row whose age_category is not "16-17 years" (a missing
    age included), child_smartphone is "Not Applicable". *)
Theorem persons_child_smartphone_not_applicable (r : row) :
  Persons.persons r "age" <> Some (CStr "16-17 years") ->
  Persons.persons r "child_smartphone" = Some (CStr NA).
Proof.
  unfold Persons.persons. intros Ha.
  eapply (run_steps_locset_at _ 1); [reflexivity | | reflexivity | reflexivity].
  cbv beta. rewrite run_steps_col_at by reflexivity.
  unfold neq_str. now rewrite (eq_str_false _ _ Ha).
Qed.

Lemma persons_child_smartphone_not_applicable_witness :
  let r := fun c => if String.eqb c "age" then Some (CStr "35-44 years")
                    else if String.eqb c "child_smartphone" then Some (CStr "Yes")
                    else None in
  Persons.persons r "child_smartphone" = Some (CStr NA).
Proof.
  intros r. apply persons_child_smartphone_not_applicable. vm_compute. discriminate.
Defined.

(** In every person row whose final employment_status is "Not currently
    employed", each job and commute field of the employment recode
    (jobs_count, military_status, job_type, ..., work_address,
    secondwork_address) is "Not Applicable": every later recode either
    leaves it or writes "Not Applicable" again. *)
Theorem persons_not_employed_job_fields_not_applicable (r : row) (c : string) :
  Persons.persons r "employment" = Some (CStr "Not currently employed") ->
  In c Persons.employed_cols ->
  Persons.persons r c = Some (CStr NA).
Proof.
  unfold Persons.persons. intros He Hc.
  eapply (run_steps_locset_at _ 3); [reflexivity | | now apply mem_In | apply persons_keeps_na].
  cbv beta. rewrite run_steps_col_at by reflexivity. rewrite He. reflexivity.
Qed.

Lemma persons_not_employed_job_fields_not_applicable_witness :
  let r := fun c => if String.eqb c "age" then Some (CStr "35-44 years")
                    else if String.eqb c "employment" then Some (CStr "Not currently employed")
                    else if String.eqb c "work_address" then Some (CStr "1 Main St")
                    else None in
  Persons.persons r "work_address" = Some (CStr NA).
Proof.
  intros r. apply persons_not_employed_job_fields_not_applicable;
    [vm_compute; reflexivity | cbn; tauto].
Defined.

(** In every person row whose commute_mode is not one of the driving modes
    (drive alone, the two carpool modes, motorcycle/moped/scooter; a missing
    mode included), work_parking_payment, work_parking_cost_dk and
    work_parking_ease are "Not Applicable". *)
Theorem persons_no_drive_commute_parking_not_applicable (r : row) (c : string) :
  isin (Persons.persons r "commute_mode")
       ["Drive alone"; "Carpool with only family/household member(s)";
        "Carpool with at least one person not in household";
        "Motorcycle/moped/scooter"] = false ->
  In c ["work_park_pay"; "work_park_cost_dk"; "work_park_ease"] ->
  Persons.persons r c = Some (CStr NA).
Proof.
  unfold Persons.persons. intros Hm Hc.
  eapply (run_steps_locset_at _ 17); [reflexivity | | now apply mem_In |].
  - cbv beta. rewrite run_steps_col_at by reflexivity. rewrite Hm. reflexivity.
  - destruct Hc as [<-|[<-|[<-|[]]]]; reflexivity.
Qed.

Lemma persons_no_drive_commute_parking_not_applicable_witness :
  let r := fun c => if String.eqb c "age" then Some (CStr "35-44 years")
                    else if String.eqb c "employment" then Some (CStr "Employed full-time")
                    else if String.eqb c "commute_freq" then Some (CStr "5 days a week")
                    else if String.eqb c "commute_mode" then Some (CStr "Walk")
                    else if String.eqb c "work_park_pay" then Some (CStr "Free")
                    else None in
  Persons.persons r "work_park_pay" = Some (CStr NA).
Proof.
  intros r. apply persons_no_drive_commute_parking_not_applicable;
    [vm_compute; reflexivity | cbn; tauto].
Defined.

(** In every person row, work_address, secondwork_address,
    mainschool_address and secondschool_address are never missing. *)
Theorem persons_addresses_present (r : row) (c : string) :
  In c ["work_address"; "secondwork_address"; "mainschool_address"; "secondschool_address"] ->
  Persons.persons r c <> None.
Proof.
  unfold Persons.persons. intros [<-|[<-|[<-|[<-|[]]]]].
  - apply (run_steps_fillna_at _ 22 _ (CStr "Missing")). all: reflexivity.
  - apply (run_steps_fillna_at _ 4 _ (CStr NA)). all: reflexivity.
  - apply (run_steps_fillna_at _ 21 _ (CStr "Missing")). all: reflexivity.
  - apply (run_steps_fillna_at _ 8 _ (CStr NA)). all: reflexivity.
Qed.

Lemma persons_addresses_present_witness :
  Persons.persons (fun _ => None) "work_address" <> None.
Proof. apply persons_addresses_present. cbn. tauto. Defined.

(** ** The trips table *)

(** The step at position [k] is [df[c] = df[c].str...]: the final value of
    [c] is the function applied to its value before that step. *)
Lemma run_steps_mapcol_at (ss : list step) (k : nat) (c : string)
    (f : cell -> option cell) (r : row) :
  nth_error ss k = Some (MapCol c f) -> writes c (skipn (S k) ss) = false ->
  run_steps ss r c =
  match run_steps (firstn k ss) r c with Some x => f x | None => None end.
Proof.
  intros Hn Hw.
  rewrite (run_steps_split (S k)), run_steps_frame by exact Hw.
  rewrite (firstn_S_nth_error _ _ _ Hn), run_steps_app, run_steps_cons, run_steps_nil.
  cbn [apply_step]. now rewrite String.eqb_refl.
Qed.

Lemma trips_mode_guard (l : list string) (k : nat) (r : row) :
  forallb (fun m => negb (writes m (firstn k Trips.trips_steps))) Trips.mode_cols = true ->
  (forall m, In m Trips.mode_cols -> isin (Trips.trips r m) l = false) ->
  Trips.no_mode_in l (run_steps (firstn k Trips.trips_steps) r) = true.
Proof.
  intros Hw Hm. apply no_mode_in_true. intros m Hin.
  rewrite modes_frame by (exact Hw || exact Hin).
  rewrite <- trips_modes by exact Hin. now apply Hm.
Qed.

Lemma trips_mode_value (k : nat) (r : row) (m : string) :
  forallb (fun m => negb (writes m (firstn k Trips.trips_steps))) Trips.mode_cols = true ->
  In m Trips.mode_cols ->
  run_steps (firstn k Trips.trips_steps) r m = Trips.trips r m.
Proof.
  intros Hw Hin. rewrite modes_frame by (exact Hw || exact Hin).
  symmetry. now apply trips_modes.
Qed.

Lemma strip_bar_no_bar (s : string) : ~ In "|"%char (list_ascii_of_string (Trips.strip_bar s)).
Proof.
  induction s as [|ch t IH]; cbn; [tauto|].
  destruct (Ascii.eqb_spec ch "|"%char) as [E|E]; [exact IH|].
  cbn. intros [H|H]; [congruence | exact (IH H)].
Qed.

(** In every trip row where none of mode_1..mode_4 is a taxi mode ("Taxi -
    Regular", "Taxi - Rideshare"), taxi_pay_type and taxi_cost_dk are "Not
    Applicable". *)
Theorem trips_no_taxi_mode_taxi_fields_not_applicable (r : row) :
  (forall m, In m Trips.mode_cols -> isin (Trips.trips r m) Trips.taxi_modes = false) ->
  Trips.trips r "taxitype" = Some (CStr NA) /\ Trips.trips r "taxi_cost_dk" = Some (CStr NA).
Proof.
  intros Hm. rewrite !trips_steps_eq by discriminate.
  assert (Ht : run_steps Trips.trips_steps r "taxitype" = Some (CStr NA)).
  { eapply (run_steps_locset_at _ 18); [reflexivity | | reflexivity | reflexivity].
    apply trips_mode_guard; [reflexivity | exact Hm]. }
  split; [exact Ht|].
  eapply (run_steps_locset_at _ 19); [reflexivity | | reflexivity | reflexivity].
  cbv beta. rewrite run_steps_col_at, Ht by reflexivity. reflexivity.
Qed.

Lemma trips_no_taxi_mode_taxi_fields_not_applicable_witness :
  let r := fun c => if String.eqb c "mode1" then Some (CStr "Walk")
                    else if String.eqb c "taxitype" then Some (CStr "Other")
                    else None in
  Trips.trips r "taxitype" = Some (CStr NA).
Proof.
  intros r. refine (proj1 (trips_no_taxi_mode_taxi_fields_not_applicable r _)).
  intros m Hm. vm_compute in Hm.
  destruct Hm as [<-|[<-|[<-|[<-|[]]]]]; vm_compute; reflexivity.
Defined.

(** In every trip row where none of mode_1..mode_4 is "Bus", "Intercity bus"
    or "Express bus/Rapid", bus_pay_type and bus_cost_dk are "Not
    Applicable", and so is rail_cost_dk, whose rule tests the rail pay type
    that the same modes set. *)
Theorem trips_no_bus_mode_bus_fields_not_applicable (r : row) :
  (forall m, In m Trips.mode_cols -> isin (Trips.trips r m) Trips.bus_modes = false) ->
  Trips.trips r "bustype" = Some (CStr NA) /\
  Trips.trips r "bus_cost_dk" = Some (CStr NA) /\
  Trips.trips r "rail_cost_dk" = Some (CStr NA).
Proof.
  intros Hm. rewrite !trips_steps_eq by discriminate.
  assert (Hb : run_steps Trips.trips_steps r "bustype" = Some (CStr NA)).
  { eapply (run_steps_locset_at _ 22); [reflexivity | | reflexivity | reflexivity].
    apply trips_mode_guard; [reflexivity | exact Hm]. }
  assert (Hr : run_steps Trips.trips_steps r "railtype" = Some (CStr NA)).
  { eapply (run_steps_locset_at _ 24); [reflexivity | | reflexivity | reflexivity].
    apply trips_mode_guard; [reflexivity | exact Hm]. }
  split; [exact Hb|]. split.
  - eapply (run_steps_locset_at _ 23); [reflexivity | | reflexivity | reflexivity].
    cbv beta. rewrite run_steps_col_at, Hb by reflexivity. reflexivity.
  - eapply (run_steps_locset_at _ 25); [reflexivity | | reflexivity | reflexivity].
    cbv beta. rewrite run_steps_col_at, Hr by reflexivity. reflexivity.
Qed.

Lemma trips_no_bus_mode_bus_fields_not_applicable_witness :
  let r := fun c => if String.eqb c "mode1" then Some (CStr "Walk")
                    else if String.eqb c "railtype" then Some (CStr "Cash, credit card, or ticket(s)")
                    else None in
  Trips.trips r "rail_cost_dk" = Some (CStr NA).
Proof.
  intros r. refine (proj2 (proj2 (trips_no_bus_mode_bus_fields_not_applicable r _))).
  intros m Hm. vm_compute in Hm.
  destruct Hm as [<-|[<-|[<-|[<-|[]]]]]; vm_compute; reflexivity.
Defined.

(** In every trip row where none of mode_1..mode_4 is "Ferry or water
    taxi", ferry_type and ferry_cost_dk are "Not Applicable". *)
Theorem trips_no_ferry_mode_ferry_fields_not_applicable (r : row) :
  (forall m, In m Trips.mode_cols -> Trips.trips r m <> Some (CStr "Ferry or water taxi")) ->
  Trips.trips r "ferrytype" = Some (CStr NA) /\ Trips.trips r "ferry_cost_dk" = Some (CStr NA).
Proof.
  intros Hm. rewrite !trips_steps_eq by discriminate.
  assert (Hf : run_steps Trips.trips_steps r "ferrytype" = Some (CStr NA)).
  { eapply (run_steps_locset_at _ 26); [reflexivity | | reflexivity | reflexivity].
    cbv beta. unfold neq_str.
    rewrite (trips_mode_value 26 r "mode1"), (trips_mode_value 26 r "mode2"),
      (trips_mode_value 26 r "mode3"), (trips_mode_value 26 r "mode4")
      by (reflexivity || (cbn; tauto)).
    rewrite !eq_str_false by (apply Hm; cbn; tauto). reflexivity. }
  split; [exact Hf|].
  eapply (run_steps_locset_at _ 27); [reflexivity | | reflexivity | reflexivity].
  cbv beta. rewrite run_steps_col_at, Hf by reflexivity. reflexivity.
Qed.

Lemma trips_no_ferry_mode_ferry_fields_not_applicable_witness :
  let r := fun c => if String.eqb c "mode1" then Some (CStr "Walk")
                    else if String.eqb c "ferrytype" then Some (CStr "Other")
                    else None in
  Trips.trips r "ferrytype" = Some (CStr NA).
Proof.
  intros r. refine (proj1 (trips_no_ferry_mode_ferry_fields_not_applicable r _)).
  intros m Hm. vm_compute in Hm.
  destruct Hm as [<-|[<-|[<-|[<-|[]]]]]; vm_compute; discriminate.
Defined.

(** In every trip row where none of mode_1..mode_4 is in the source's
    transit list, transit_access and transit_egress are "Not Applicable".
    That list holds "VanpoolBus" (two adjacent literals) but neither
    "Vanpool" nor "Bus", so a trip by "Bus" alone gets "Not Applicable"
    there. *)
Theorem trips_no_transit_mode_access_egress_not_applicable (r : row) (c : string) :
  (forall m, In m Trips.mode_cols -> isin (Trips.trips r m) Trips.transit_modes = false) ->
  In c ["transit_access"; "transit_egress"] ->
  Trips.trips r c = Some (CStr NA).
Proof.
  intros Hm Hc.
  rewrite trips_steps_eq by (destruct Hc as [<-|[<-|[]]]; discriminate).
  eapply (run_steps_locset_at _ 12); [reflexivity | | now apply mem_In |].
  - apply trips_mode_guard; [reflexivity | exact Hm].
  - destruct Hc as [<-|[<-|[]]]; reflexivity.
Qed.

Lemma trips_no_transit_mode_access_egress_not_applicable_witness :
  let r := fun c => if String.eqb c "mode1" then Some (CStr "Bus")
                    else if String.eqb c "transit_access" then Some (CStr "Walked")
                    else None in
  Trips.trips r "mode1" = Some (CStr "Bus") /\
  Trips.trips r "transit_access" = Some (CStr NA).
Proof.
  intros r. split; [vm_compute; reflexivity|].
  apply trips_no_transit_mode_access_egress_not_applicable; [|cbn; tauto].
  intros m Hm. vm_compute in Hm.
  destruct Hm as [<-|[<-|[<-|[<-|[]]]]]; vm_compute; reflexivity.
Defined.

(** Up to the [.str.replace] of an address column, the recodes write only
    text there: an input address that is text or missing is still text
    afterwards, and never missing (the [fillna("Missing")]). *)
Lemma trips_address_text_before (r : row) (c : string) (k : nat) :
  (c = "origin_address" /\ k = 28%nat \/ c = "destination_address" /\ k = 29%nat) ->
  (forall x, r c = Some x -> exists s, x = CStr s) ->
  exists s, run_steps (firstn k Trips.trips_steps) r c = Some (CStr s).
Proof.
  intros Hck Htext.
  pose (is_text := fun x => match x with CStr _ => true | _ => false end).
  assert (Hr : forall x, r c = Some x -> is_text x = true)
    by (intros x Hx; destruct (Htext x Hx) as [s ->]; reflexivity).
  assert (Hw : forallb (writes_only c is_text) (firstn k Trips.trips_steps) = true)
    by (destruct Hck as [[-> ->]|[-> ->]]; reflexivity).
  assert (Hp : run_steps (firstn k Trips.trips_steps) r c <> None).
  { destruct Hck as [[-> ->]|[-> ->]].
    - apply (run_steps_fillna_at _ 3 _ (CStr "Missing")); reflexivity.
    - apply (run_steps_fillna_at _ 4 _ (CStr "Missing")); reflexivity. }
  destruct (run_steps (firstn k Trips.trips_steps) r c) as [x|] eqn:E; [|contradiction].
  pose proof (run_steps_values is_text _ r c Hw Hr x E) as Hx.
  destruct x as [s| |]; try discriminate Hx. now exists s.
Qed.

(** In every trip row, revised_count, origin_name, destination_name,
    o_purpose_other and d_purpose_other are never missing, and
    origin_address and destination_address are never missing when their
    input value is text or missing (the [.str.replace] that strips '|' turns
    any other value into NaN). *)
Theorem trips_missing_cols_present (r : row) (c : string) :
  In c Trips.missing_cols ->
  (In c ["origin_address"; "destination_address"] ->
   forall x, r c = Some x -> exists s, x = CStr s) ->
  Trips.trips r c <> None.
Proof.
  intros Hc Htext. rewrite trips_steps_eq by
    (intros ->; cbn in Hc; intuition discriminate).
  unfold Trips.missing_cols in Hc.
  destruct Hc as [<-|[<-|[<-|[<-|[<-|[<-|[<-|[]]]]]]]];
    [ apply (run_steps_fillna_at _ 0 _ (CStr "Missing")); reflexivity
    | apply (run_steps_fillna_at _ 1 _ (CStr "Missing")); reflexivity
    | apply (run_steps_fillna_at _ 2 _ (CStr "Missing")); reflexivity
    | | 
    | apply (run_steps_fillna_at _ 5 _ (CStr "Missing")); reflexivity
    | apply (run_steps_fillna_at _ 6 _ (CStr "Missing")); reflexivity ].
  - rewrite (run_steps_mapcol_at _ 28 "origin_address" Trips.strip_bar_cell) by reflexivity.
    destruct (trips_address_text_before r "origin_address" 28 (or_introl (conj eq_refl eq_refl))
                (Htext ltac:(cbn; tauto))) as [s ->].
    discriminate.
  - rewrite (run_steps_mapcol_at _ 29 "destination_address" Trips.strip_bar_cell) by reflexivity.
    destruct (trips_address_text_before r "destination_address" 29 (or_intror (conj eq_refl eq_refl))
                (Htext ltac:(cbn; tauto))) as [s ->].
    discriminate.
Qed.

Lemma trips_missing_cols_present_witness :
  let r := fun c => if String.eqb c "destination_address" then Some (CStr "5 Oak Ave |")
                    else None in
  Trips.trips r "destination_address" <> None /\
  Trips.trips r "origin_address" <> None.
Proof.
  intros r. split.
  - apply trips_missing_cols_present; [cbn; tauto|].
    intros _ x Hx. injection Hx as <-. now exists "5 Oak Ave |".
  - apply trips_missing_cols_present; [cbn; tauto|].
    intros _ x Hx. discriminate Hx.
Defined.

(** In every trip row, a text value of origin_address or destination_address
    contains no '|' character. *)
Theorem trips_addresses_no_bar (r : row) (c s : string) :
  In c ["origin_address"; "destination_address"] ->
  Trips.trips r c = Some (CStr s) -> ~ In "|"%char (list_ascii_of_string s).
Proof.
  intros Hc H.
  rewrite trips_steps_eq in H by (destruct Hc as [<-|[<-|[]]]; discriminate).
  destruct Hc as [<-|[<-|[]]].
  - rewrite (run_steps_mapcol_at _ 28 "origin_address" Trips.strip_bar_cell) in H
      by reflexivity.
    destruct (run_steps (firstn 28 Trips.trips_steps) r "origin_address") as [[x| |]|];
      cbn in H; try discriminate.
    injection H as <-. apply strip_bar_no_bar.
  - rewrite (run_steps_mapcol_at _ 29 "destination_address" Trips.strip_bar_cell) in H
      by reflexivity.
    destruct (run_steps (firstn 29 Trips.trips_steps) r "destination_address") as [[x| |]|];
      cbn in H; try discriminate.
    injection H as <-. apply strip_bar_no_bar.
Qed.

Lemma trips_addresses_no_bar_witness :
  let r := fun c => if String.eqb c "origin_address" then Some (CStr "1 Main St | Apt 2")
                    else None in
  Trips.trips r "origin_address" = Some (CStr "1 Main St  Apt 2") /\
  ~ In "|"%char (list_ascii_of_string "1 Main St  Apt 2").
Proof.
  intros r. assert (H : Trips.trips r "origin_address" = Some (CStr "1 Main St  Apt 2"))
    by (vm_compute; reflexivity).
  split; [exact H|]. exact (trips_addresses_no_bar r "origin_address" _ ltac:(cbn; tauto) H).
Defined.

(** In every trip row from an rMove survey, origin_name, origin_address,
    destination_name, destination_address, toll_road, toll_noexpress,
    toll_road_express, transit_access, transit_egress, parkride_lot and
    parkride_city are "Not Applicable"; the later recodes write
    "Not Applicable" there or, for the addresses, drop '|' characters, which
    leaves "Not Applicable" unchanged. *)
Theorem trips_rmove_fields_not_applicable (r : row) (c : string) :
  Trips.trips r "data_source" = Some (CStr "rMove") ->
  In c ["origin_name"; "origin_address"; "destination_name"; "destination_address";
        "toll_no"; "toll_noexpress"; "toll_express"; "transit_access";
        "transit_egress"; "parkride_lot"; "parkride_city"] ->
  Trips.trips r c = Some (CStr NA).
Proof.
  intros Hd Hc.
  rewrite trips_steps_eq, run_steps_frame in Hd by (reflexivity || discriminate).
  assert (Hpre : forall k, (8 <= k)%nat ->
                 mem c ["origin_name"; "origin_address"; "destination_name";
                        "destination_address"; "toll_no"; "toll_noexpress";
                        "toll_express"; "transit_access"; "transit_egress";
                        "parkride_lot"; "parkride_city"] = true ->
                 forallb (keeps c NA) (skipn 8 (firstn k Trips.trips_steps)) = true ->
                 run_steps (firstn k Trips.trips_steps) r c = Some (CStr NA)).
  { intros k Hk1 Hm Hkeep. eapply (run_steps_locset_at _ 7); [|cbv beta| |].
    - rewrite nth_error_firstn. replace (7 <? k)%nat with true by (symmetry; apply Nat.ltb_lt; lia).
      reflexivity.
    - rewrite firstn_firstn, Nat.min_l by lia.
      rewrite run_steps_frame by reflexivity. rewrite Hd. reflexivity.
    - exact Hm.
    - exact Hkeep. }
  rewrite trips_steps_eq by (destruct Hc as [<-|[<-|[<-|[<-|[<-|[<-|[<-|[<-|[<-|[<-|[<-|[]]]]]]]]]]]];
                               discriminate).
  destruct Hc as [<-|[<-|[<-|[<-|[<-|[<-|[<-|[<-|[<-|[<-|[<-|[]]]]]]]]]]]];
    try (rewrite <- (firstn_all Trips.trips_steps);
         apply Hpre; [cbn; lia | reflexivity | reflexivity]).
  - rewrite (run_steps_mapcol_at _ 28 "origin_address" Trips.strip_bar_cell) by reflexivity.
    rewrite Hpre by (lia || reflexivity). reflexivity.
  - rewrite (run_steps_mapcol_at _ 29 "destination_address" Trips.strip_bar_cell) by reflexivity.
    rewrite Hpre by (lia || reflexivity). reflexivity.
Qed.

Lemma trips_rmove_fields_not_applicable_witness :
  let r := fun c => if String.eqb c "data_source" then Some (CStr "rMove")
                    else if String.eqb c "origin_address" then Some (CStr "1 Main St")
                    else None in
  Trips.trips r "origin_address" = Some (CStr NA).
Proof.
  intros r. apply trips_rmove_fields_not_applicable; [vm_compute; reflexivity | cbn; tauto].
Defined.

(** In every trip row, weight_trip is set exactly when weight_person_trip is
    set, and a weight_trip that is set lies in (0, 1]. *)
Theorem trips_weight_trip_range (r : row) :
  (Trips.trips r "weight_trip" <> None <-> Trips.trips r "weight_person_trip" <> None) /\
  (forall q, Trips.trips r "weight_trip" = Some (CNum q) -> (0 < q /\ q <= 1)%Q).
Proof.
  unfold Trips.trips, Trips.weights, Trips.loc_new.
  set (t := run_steps Trips.trips_steps r). clearbody t. cbv zeta.
  destruct (num_ge1 (t "h_complete_weekdays")) eqn:Ep; cbn -[Qdiv inject_Z].
  - destruct (t "travelers_hh") as [[s|z|x]|] eqn:Et; cbn -[Qdiv inject_Z].
    + split; [tauto|]. intros q H. injection H as <-. split; [reflexivity | apply Qle_refl].
    + destruct ((1 <=? z) && (z <=? 10))%Z eqn:Ez; cbn -[Qdiv inject_Z].
      * split; [split; discriminate|].
        intros q H. injection H as <-.
        apply andb_true_iff in Ez as [Ez1 Ez2]. apply Z.leb_le in Ez1.
        split.
        -- apply Qlt_shift_div_l.
           ++ change 0%Q with (inject_Z 0). rewrite <- Zlt_Qlt. lia.
           ++ rewrite Qmult_0_l. reflexivity.
        -- apply Qle_shift_div_r.
           ++ change 0%Q with (inject_Z 0). rewrite <- Zlt_Qlt. lia.
           ++ rewrite Qmult_1_l. change 1%Q with (inject_Z 1). rewrite <- Zle_Qle. exact Ez1.
      * split; [tauto|]. intros q H. injection H as <-. split; [reflexivity | apply Qle_refl].
    + split; [tauto|]. intros q H. injection H as <-. split; [reflexivity | apply Qle_refl].
    + split; [tauto|]. intros q H. injection H as <-. split; [reflexivity | apply Qle_refl].
  - split; [tauto|]. discriminate.
Qed.

Lemma trips_weight_trip_range_witness :
  let r := fun c => if String.eqb c "h_complete_weekdays" then Some (CInt 2)
                    else if String.eqb c "travelers_hh" then Some (CInt 4)
                    else None in
  Trips.trips r "weight_trip" = Some (CNum (1 # 4)) /\ (0 < 1 # 4 /\ 1 # 4 <= 1)%Q.
Proof.
  intros r. assert (H : Trips.trips r "weight_trip" = Some (CNum (1 # 4)))
    by (vm_compute; reflexivity).
  split; [exact H|]. exact (proj2 (trips_weight_trip_range r) _ H).
Defined.

(** ** Diagnostic frequencies *)

Module FrequencyProofs.
Import Frequencies.

Lemma count_cons (f : option cell -> bool) (v : option cell) (vs : list (option cell)) :
  count f (v :: vs) = ((if f v then 1 else 0) + count f vs)%Z.
Proof. unfold count. cbn [filter]. destruct (f v); cbn [length]; lia. Qed.

Lemma count_split (f : option cell -> bool) (l : list (option cell)) :
  (count f l + count (fun x => negb (f x)) l)%Z = Z.of_nat (length l).
Proof. unfold count. rewrite <- (filter_length f l). lia. Qed.

Lemma count_le (f g : option cell -> bool) (l : list (option cell)) :
  (forall v, f v = true -> g v = true) -> (count f l <= count g l)%Z.
Proof.
  intros Hfg. induction l as [|v l IH]; [reflexivity|].
  rewrite !count_cons. destruct (f v) eqn:E.
  - rewrite (Hfg v E). lia.
  - destruct (g v); lia.
Qed.

Lemma count_nonneg (f : option cell -> bool) (l : list (option cell)) : (0 <= count f l)%Z.
Proof. unfold count. lia. Qed.

Lemma sum_map_add {A : Type} (f g : A -> Z) (l : list A) :
  fold_right Z.add 0%Z (map (fun k => f k + g k)%Z l) =
  (fold_right Z.add 0%Z (map f l) + fold_right Z.add 0%Z (map g l))%Z.
Proof. induction l as [|a l IH]; cbn; lia. Qed.

Lemma sum_zero_notin (ks : list cell) (k0 : cell) :
  ~ In k0 ks ->
  fold_right Z.add 0%Z (map (fun k => if holds k (Some k0) then 1 else 0)%Z ks) = 0%Z.
Proof.
  induction ks as [|k ks IH]; intros H; [reflexivity|]. cbn [map fold_right].
  change (holds k (Some k0)) with (if cell_eq_dec k0 k then true else false).
  destruct (cell_eq_dec k0 k) as [->|E]; [exfalso; apply H; now left|].
  rewrite IH by (intros Hin; apply H; now right). reflexivity.
Qed.

Lemma sum_single (ks : list cell) (v : option cell) :
  NoDup ks -> (v = None \/ exists k, v = Some k /\ In k ks) ->
  fold_right Z.add 0%Z (map (fun k => if holds k v then 1 else 0)%Z ks) =
  (if isnull v then 0 else 1)%Z.
Proof.
  intros Hnd [->|[k0 [-> Hin]]].
  - cbn. clear. induction ks as [|k ks IH]; [reflexivity|]. cbn. exact IH.
  - cbn [isnull]. induction Hnd as [|k ks Hk Hnd IH]; [destruct Hin|].
    cbn [map fold_right].
    change (holds k (Some k0)) with (if cell_eq_dec k0 k then true else false).
    destruct (cell_eq_dec k0 k) as [->|E].
    + rewrite sum_zero_notin by exact Hk. reflexivity.
    + destruct Hin as [->|Hin]; [congruence|]. rewrite (IH Hin). reflexivity.
Qed.

Lemma category_sum (ks : list cell) (vs : list (option cell)) :
  NoDup ks ->
  (forall v, In v vs -> v = None \/ exists k, v = Some k /\ In k ks) ->
  fold_right Z.add 0%Z (map (fun k => count (holds k) vs) ks) =
  count (fun v => negb (isnull v)) vs.
Proof.
  intros Hnd. induction vs as [|v vs IH]; intros Hv.
  - clear. induction ks as [|k ks IH]; [reflexivity|]. cbn. exact IH.
  - rewrite (map_ext _ (fun k => (if holds k v then 1 else 0) +
                                 count (holds k) vs)%Z)
      by (intros k; apply count_cons).
    rewrite sum_map_add, sum_single, IH, count_cons.
    + destruct (isnull v); reflexivity.
    + intros w Hw. apply Hv. now right.
    + exact Hnd.
    + apply Hv. now left.
Qed.

End FrequencyProofs.

(** For every column and every list of user missing values, the n (non
    missing) and m (missing) counts of [frequencies] are non-negative and
    add up to the number of rows: a user missing value is moved from n to
    m, and is never counted when the cell is already null. *)
Theorem frequencies_n_m_partition (user_missing : list string) (c : Frequencies.column) :
  (fst (Frequencies.n_m user_missing c) + snd (Frequencies.n_m user_missing c))%Z =
    Z.of_nat (length (Frequencies.values c)) /\
  (0 <= fst (Frequencies.n_m user_missing c))%Z /\
  (0 <= snd (Frequencies.n_m user_missing c))%Z.
Proof.
  pose proof (FrequencyProofs.count_split isnull (Frequencies.values c)) as Hs.
  pose proof (FrequencyProofs.count_le (fun v => isin v user_missing)
                (fun v => negb (isnull v)) (Frequencies.values c)) as Hle.
  pose proof (FrequencyProofs.count_nonneg (fun v => negb (isnull v)) (Frequencies.values c)).
  pose proof (FrequencyProofs.count_nonneg isnull (Frequencies.values c)).
  pose proof (FrequencyProofs.count_nonneg (fun v => isin v user_missing) (Frequencies.values c)).
  unfold Frequencies.n_m. cbv zeta.
  destruct (Frequencies.is_category c); cbn [fst snd].
  - assert (Hc : (Frequencies.count (fun v => isin v user_missing) (Frequencies.values c) <=
                 Frequencies.count (fun v => negb (isnull v)) (Frequencies.values c))%Z)
      by (apply Hle; intros [v|] Hv; [reflexivity | discriminate]).
    lia.
  - lia.
Qed.

(** For a category column whose categories are distinct and whose present
    values are all categories (what pandas keeps for a categorical), the
    counts of the frequency table add up to the number of non-missing
    rows. *)
Theorem frequencies_category_counts_cover (c : Frequencies.column) :
  NoDup (Frequencies.categories c) ->
  (forall v, In v (Frequencies.values c) ->
             v = None \/ exists k, v = Some k /\ In k (Frequencies.categories c)) ->
  fold_right Z.add 0%Z (map snd (Frequencies.category_counts c)) =
  Frequencies.count (fun v => negb (isnull v)) (Frequencies.values c).
Proof.
  intros Hnd Hv. unfold Frequencies.category_counts. rewrite map_map. cbn [snd].
  now apply FrequencyProofs.category_sum.
Qed.

Lemma frequencies_category_counts_cover_witness :
  let c := Frequencies.mkColumn "travelers_household" true
             [CInt 1; CInt 2; CInt 3; CStr "Missing"]
             [Some (CInt 1); None; Some (CInt 2); Some (CInt 1); Some (CStr "Missing")] in
  fold_right Z.add 0%Z (map snd (Frequencies.category_counts c)) = 4%Z.
Proof.
  intros c. rewrite frequencies_category_counts_cover.
  - vm_compute. reflexivity.
  - repeat constructor; cbn; intuition discriminate.
  - intros v Hv. cbn in Hv.
    destruct Hv as [<-|[<-|[<-|[<-|[<-|[]]]]]];
      first [left; reflexivity | right; eexists; split; [reflexivity | cbn; tauto]].
Defined.

(** ** Point geometries *)

(** [point_wkt] gives, for each coordinate pair, the text that [line_wkt]
    gives for the line made of that one point. *)
Theorem point_wkt_line_wkt_singletons {P : Type} (eq : forall x y : P, {x = y} + {x <> y})
    (g : Geometry.geo_lib P) (coordinates : list P) :
  Geometry.line_wkt eq g (map (fun p => [p]) coordinates) =
  Some (Geometry.point_wkt g coordinates).
Proof.
  rewrite GeometryProofs.line_wkt_all. f_equal. rewrite map_map.
  unfold Geometry.point_wkt. apply map_ext. intros p.
  rewrite (GeometryProofs.line_wkt_one_point eq g [p] p) by reflexivity.
  cbn. destruct (Geometry.is_valid g _); reflexivity.
Qed.

(** ** Location paths *)

Module LocationProofs.
Import Location.

Lemma permutation_filter {A : Type} (f : A -> bool) (l l' : list A) :
  Permutation l l' -> Permutation (filter f l) (filter f l').
Proof.
  induction 1 as [|x l l' H IH|x y l|l l' l'' H1 IH1 H2 IH2]; cbn.
  - constructor.
  - destruct (f x); [constructor|]; exact IH.
  - destruct (f x), (f y); try constructor; reflexivity.
  - now transitivity (filter f l').
Qed.

Lemma sorted_lt (R : Z -> Z -> Prop) (l : list Z) :
  (forall x y, R x y -> x <> y -> (x < y)%Z) ->
  StronglySorted R l -> NoDup l -> StronglySorted Z.lt l.
Proof.
  intros HR. induction 1 as [|a l Hs IH Hf]; intros Hnd; constructor.
  - apply IH. now inversion Hnd.
  - inversion Hnd as [|? ? Ha Hnd']. subst.
    apply Forall_forall. intros y Hy. apply HR.
    + exact (proj1 (Forall_forall _ _) Hf y Hy).
    + intros ->. exact (Ha Hy).
Qed.

Lemma zleb_trans : Transitive (fun x y : Z => is_true (ZOrder.leb x y)).
Proof. intros x y z. unfold is_true, ZOrder.leb. rewrite !Z.leb_le. lia. Qed.

Lemma group_keys_sorted {C : Type} (ps : list (@point C)) :
  StronglySorted Z.lt (group_keys ps).
Proof.
  unfold group_keys. apply (sorted_lt (fun x y => is_true (ZOrder.leb x y))).
  - intros x y. unfold is_true, ZOrder.leb. rewrite Z.leb_le. lia.
  - apply ZSort.StronglySorted_sort, zleb_trans.
  - eapply Permutation_NoDup; [apply ZSort.Permuted_sort | apply NoDup_nodup].
Qed.

Lemma group_keys_in {C : Type} (ps : list (@point C)) (t : Z) :
  In t (group_keys ps) <-> exists p, In p ps /\ tripid p = t.
Proof.
  unfold group_keys. split; intros H.
  - apply (Permutation_in _ (Permutation_sym (ZSort.Permuted_sort _))) in H.
    apply nodup_In, in_map_iff in H as [p [Hp Hin]]. now exists p.
  - apply (Permutation_in _ (ZSort.Permuted_sort _)).
    apply nodup_In, in_map_iff. destruct H as [p [Hin Hp]]. now exists p.
Qed.

Lemma filter_time_sorted {C : Type} (t : Z) (l : list (@point C)) :
  StronglySorted point_le l ->
  StronglySorted (fun a b => String.leb (collected_at a) (collected_at b) = true)
    (filter (fun p => (tripid p =? t)%Z) l).
Proof.
  induction 1 as [|a l Hs IH Hf]; cbn; [constructor|].
  destruct (Z.eqb_spec (tripid a) t) as [Ea|Ea]; [|exact IH].
  constructor; [exact IH|].
  apply Forall_forall. intros b Hb. apply filter_In in Hb as [Hb Eb].
  apply Z.eqb_eq in Eb.
  destruct (proj1 (Forall_forall _ _) Hf b Hb) as [Hlt|[_ Hle]]; [lia | exact Hle].
Qed.

End LocationProofs.

(** For every result of the location paths ([sort_values] by trip and time,
    then [groupby("tripid")]): the trip ids come in strictly increasing
    order, they are exactly the trip ids of the input points, and each
    trip's path is non-empty and lists the coordinates of that trip's points
    ordered by collected_at. *)
Theorem location_lines_grouped {C : Type} (ps : list (@Location.point C))
    (lines : list (Z * list (C * C))) :
  Location.location_lines ps lines ->
  StronglySorted Z.lt (map fst lines) /\
  (forall t, In t (map fst lines) <-> exists p, In p ps /\ Location.tripid p = t) /\
  (forall t cs, In (t, cs) lines ->
     exists qs, Permutation qs (filter (fun p => (Location.tripid p =? t)%Z) ps) /\
                StronglySorted (fun a b => String.leb (Location.collected_at a)
                                                      (Location.collected_at b) = true) qs /\
                cs = map Location.coordinates qs /\ qs <> []).
Proof.
  intros [ps' [[Hperm Hsort] ->]].
  assert (Hk : map fst (Location.lines_of ps') = Location.group_keys ps').
  { unfold Location.lines_of. rewrite map_map. cbn [fst]. apply map_id. }
  rewrite Hk. split; [apply LocationProofs.group_keys_sorted|]. split.
  - intros t. rewrite LocationProofs.group_keys_in. split.
    + intros [p [Hp Ht]]. exists p. split; [|exact Ht].
      exact (Permutation_in _ (Permutation_sym Hperm) Hp).
    + intros [p [Hp Ht]]. exists p. split; [|exact Ht]. exact (Permutation_in _ Hperm Hp).
  - intros t cs Hin. unfold Location.lines_of in Hin.
    apply in_map_iff in Hin as [t' [Ht Hin]]. injection Ht as <- <-.
    exists (filter (fun p => (Location.tripid p =? t')%Z) ps'). split; [|split; [|split]].
    + apply LocationProofs.permutation_filter. now apply Permutation_sym.
    + now apply LocationProofs.filter_time_sorted.
    + reflexivity.
    + apply LocationProofs.group_keys_in in Hin as [p [Hp Ht]].
      intros E. assert (Hf : In p (filter (fun p => (Location.tripid p =? t')%Z) ps'))
        by (apply filter_In; split; [exact Hp | now apply Z.eqb_eq]).
      rewrite E in Hf. destruct Hf.
Qed.

Lemma location_lines_grouped_witness :
  let b2 := @Location.mkPoint Z 2 "10:05" 3%Z 4%Z in
  let a1 := @Location.mkPoint Z 1 "09:00" 1%Z 2%Z in
  let a2 := @Location.mkPoint Z 2 "10:00" 5%Z 6%Z in
  Location.location_lines [b2; a1; a2] [(1, [(1, 2)]); (2, [(5, 6); (3, 4)])]%Z /\
  StronglySorted Z.lt (map fst [(1, [(1, 2)]); (2, [(5, 6); (3, 4)])]%Z).
Proof.
  intros b2 a1 a2.
  assert (H : Location.location_lines [b2; a1; a2] [(1, [(1, 2)]); (2, [(5, 6); (3, 4)])]%Z).
  { exists [a1; a2; b2]. split; [split|].
    - eapply perm_trans; [apply perm_swap|]. apply perm_skip, perm_swap.
    - repeat constructor; unfold Location.point_le; cbn;
        first [left; lia | right; split; reflexivity].
    - vm_compute. reflexivity. }
  split; [exact H|]. exact (proj1 (location_lines_grouped _ _ H)).
Defined.
